(** * The documentation page template [src/templates/doc.tsx]

    A shallow embedding of the template's client-side behaviour (the
    click and scroll listeners that keep the table of contents in
    step with the reading position, and the effect that attaches and
    detaches them) and of the parts of its render output that depend
    on the page data (the previous/next navigation row and the
    table-of-contents panel).

    Conventions.
    - JavaScript strings are [string]; text outside ASCII is held in
      UTF-8.  The [href] of an anchor is the value of the DOM property
      read by the code, that is the serialised absolute URL.
    - JavaScript numbers (pixel offsets) are exact rationals [Q]; the
      rounding of doubles is not modelled.
    - A listener is a function on the browser state [World] that either
      returns or throws; the browser state is threaded explicitly.
    - A click event carries its [target], the innermost element
      clicked: the link, or an element inside it.
    - Whether [history.replaceState] takes a URL is decided by the
      browser; its answer is part of the browser state. *)

From Stdlib Require Import String Ascii List Bool ZArith NArith QArith Lia.
Import ListNotations.

Close Scope Q_scope.
Local Open Scope string_scope.

(* ------------------------------------------------------------------ *)
(** ** JavaScript string primitives used by the template *)

Module JS.

(** Exceptions the modelled code can raise: from
    [decodeURIComponent], from a method call on [undefined], and from
    [history.replaceState]. *)
Inductive Exn : Type :=
| URIError
| TypeError
| SecurityError.

(** Completion of a call: a value, or a thrown exception. *)
Inductive Result (A : Type) : Type :=
| Ok (a : A)
| Throw (e : Exn).
Arguments Ok {A} a.
Arguments Throw {A} e.

(** [s.indexOf(c)] for a one-character needle: the position of the
    first occurrence, or -1. *)
Fixpoint indexOf_from (k : Z) (c : ascii) (s : string) : Z :=
  match s with
  | EmptyString => (-1)%Z
  | String a s' => if Ascii.eqb a c then k else indexOf_from (k + 1) c s'
  end.

Definition indexOf (s : string) (c : ascii) : Z := indexOf_from 0 c s.

Fixpoint drop (n : nat) (s : string) : string :=
  match n, s with
  | O, _ => s
  | S _, EmptyString => EmptyString
  | S n', String _ s' => drop n' s'
  end.

(** [s.slice(start)]: a negative [start] counts from the end, and the
    start position is clamped to the string. *)
Definition slice (s : string) (start : Z) : string :=
  let len := Z.of_nat (String.length s) in
  let from := if (start <? 0)%Z then Z.max (len + start) 0
              else Z.min start len in
  drop (Z.to_nat from) s.

(** Truthiness of an optional string: [undefined], [null] and the
    empty string are falsy. *)
Definition truthy (s : option string) : bool :=
  match s with
  | Some EmptyString => false
  | Some _ => true
  | None => false
  end.

(** *** [decodeURIComponent]

    ECMA-262, Decode with an empty reserved set: every [%XX] escape
    is replaced by the byte it denotes, any other character is
    copied, and a URIError is thrown when a [%] is not followed by
    two hexadecimal digits or when the escaped bytes are not the
    UTF-8 encoding of a code point.  The decoded text is kept in
    UTF-8, so an accepted escape sequence contributes its bytes. *)

Definition hexDigit (c : ascii) : option N :=
  let n := N_of_ascii c in
  if ((48 <=? n) && (n <=? 57))%N then Some (n - 48)%N
  else if ((65 <=? n) && (n <=? 70))%N then Some (n - 55)%N
  else if ((97 <=? n) && (n <=? 102))%N then Some (n - 87)%N
  else None.

(** What the decoder expects next: any character, or [more] further
    escaped continuation bytes, the first of them within [lo..hi]. *)
Inductive Utf8 : Type :=
| Start
| Cont (more : nat) (lo hi : N).

(** First byte of an escaped sequence (well-formed UTF-8: no
    overlong forms, no surrogates, nothing above U+10FFFF). *)
Definition leadByte (b : N) : option Utf8 :=
  if (b <? 128)%N then Some Start
  else if (b <? 194)%N then None
  else if (b <? 224)%N then Some (Cont 1 128 191)
  else if (b =? 224)%N then Some (Cont 2 160 191)
  else if (b =? 237)%N then Some (Cont 2 128 159)
  else if (b <? 240)%N then Some (Cont 2 128 191)
  else if (b =? 240)%N then Some (Cont 3 144 191)
  else if (b <? 244)%N then Some (Cont 3 128 191)
  else if (b =? 244)%N then Some (Cont 3 128 143)
  else None.

Definition nextByte (st : Utf8) (b : N) : option Utf8 :=
  match st with
  | Start => leadByte b
  | Cont more lo hi =>
      if ((lo <=? b) && (b <=? hi))%N then
        match more with
        | S (S m) => Some (Cont (S m) 128 191)
        | _ => Some Start
        end
      else None
  end.

Fixpoint decode (st : Utf8) (s : string) : option string :=
  match s with
  | EmptyString =>
      match st with Start => Some EmptyString | Cont _ _ _ => None end
  | String "%" (String h1 (String h2 rest)) =>
      match hexDigit h1, hexDigit h2 with
      | Some a, Some b =>
          let byte := (16 * a + b)%N in
          match nextByte st byte with
          | Some st' =>
              match decode st' rest with
              | Some r => Some (String (ascii_of_N byte) r)
              | None => None
              end
          | None => None
          end
      | _, _ => None
      end
  | String "%" _ => None
  | String c rest =>
      match st with
      | Start =>
          match decode Start rest with
          | Some r => Some (String c r)
          | None => None
          end
      | Cont _ _ _ => None
      end
  end.

Definition decodeURIComponent (s : string) : Result string :=
  match decode Start s with
  | Some r => Ok r
  | None => Throw URIError
  end.

End JS.

(* ------------------------------------------------------------------ *)
(** ** The browser state the template's effect reads and writes *)

Module Dom.
Import JS.

(** An element of the document that carries a (non-empty) [id];
    [top] is what [getBoundingClientRect().top] currently returns for
    it. *)
Record Element : Type := mkElement {
  id : string;
  top : Q
}.

(** The [location] prop, as far as the template reads it. *)
Record Location : Type := mkLocation {
  pathname : string;
  search : string
}.

(** The closures the effect registers.  A closure is created afresh
    by every run of the effect, so it is identified by the number of
    the run; [onClick] also holds the [location] of that render. *)
Inductive Listener : Type :=
| OnClick (run : nat) (location : Location)
| OnScroll (run : nat).

Definition Location_eqb (a b : Location) : bool :=
  String.eqb (pathname a) (pathname b) && String.eqb (search a) (search b).

Definition Listener_eqb (a b : Listener) : bool :=
  match a, b with
  | OnClick r l, OnClick r' l' => Nat.eqb r r' && Location_eqb l l'
  | OnScroll r, OnScroll r' => Nat.eqb r r'
  | _, _ => false
  end.

(** An [a[href]] element under the table-of-contents root. *)
Record Anchor : Type := mkAnchor {
  href : string;
  classList : list string;
  listeners : list Listener
}.

(** [DOMTokenList]: an ordered set of class names. *)
Definition contains (token : string) (l : list string) : bool :=
  existsb (String.eqb token) l.

Definition remove (token : string) (l : list string) : list string :=
  filter (fun t => negb (String.eqb t token)) l.

Definition add (token : string) (l : list string) : list string :=
  if contains token l then l else l ++ [token].

(** [EventTarget]: a listener already registered is not added twice. *)
Definition addListener (f : Listener) (l : list Listener) : list Listener :=
  if existsb (Listener_eqb f) l then l else l ++ [f].

Definition removeListener (f : Listener) (l : list Listener) : list Listener :=
  filter (fun g => negb (Listener_eqb f g)) l.

(** The session history: the entries behind the current one (nearest
    first), the URL of the current entry, and the forward entries. *)
Record History : Type := mkHistory {
  back : list string;
  current : string;
  forward : list string
}.

Definition historyLength (h : History) : nat :=
  List.length (back h) + 1 + List.length (forward h).

(** Calls whose effect lies outside the modelled state, in the order
    they were made: [e.preventDefault()], [history.replaceState]
    (also applied to [history]), micell's [scrollTo], and an
    exception that left a listener and was reported by the browser. *)
Inductive Call : Type :=
| PreventDefault
| ReplaceState (url : string)
| ScrollTo (x y : Q) (behavior : string)
| Uncaught (e : Exn).

Record World : Type := mkWorld {
  tocEl : bool;                        (* [tocEl.current !== null] *)
  anchors : list Anchor;               (* [a[href]] under the root, in document order *)
  document : list Element;             (* elements with an id, in tree order *)
  innerHeight : Q;                     (* [window.innerHeight] *)
  pageYOffset : Q;                     (* what micell's [scrollY()] returns *)
  history : History;                   (* [window.history] *)
  scrollListeners : list Listener;     (* the window's 'scroll' listeners *)
  timers : list (nat * bool);          (* running throttle timers, see [Doc.throttled] *)
  calls : list Call;
  canRewriteURL : string -> bool       (* see [replaceState] *)
}.

Definition set_anchors (f : list Anchor -> list Anchor) (w : World) : World :=
  mkWorld (tocEl w) (f (anchors w)) (document w) (innerHeight w)
          (pageYOffset w) (history w) (scrollListeners w) (timers w) (calls w)
          (canRewriteURL w).

Definition set_history (f : History -> History) (w : World) : World :=
  mkWorld (tocEl w) (anchors w) (document w) (innerHeight w)
          (pageYOffset w) (f (history w)) (scrollListeners w) (timers w) (calls w)
          (canRewriteURL w).

Definition set_scrollListeners (f : list Listener -> list Listener) (w : World) : World :=
  mkWorld (tocEl w) (anchors w) (document w) (innerHeight w)
          (pageYOffset w) (history w) (f (scrollListeners w)) (timers w) (calls w)
          (canRewriteURL w).

Definition set_timers (f : list (nat * bool) -> list (nat * bool)) (w : World) : World :=
  mkWorld (tocEl w) (anchors w) (document w) (innerHeight w)
          (pageYOffset w) (history w) (scrollListeners w) (f (timers w)) (calls w)
          (canRewriteURL w).

Definition log (c : Call) (w : World) : World :=
  mkWorld (tocEl w) (anchors w) (document w) (innerHeight w)
          (pageYOffset w) (history w) (scrollListeners w) (timers w) (calls w ++ [c])
          (canRewriteURL w).

(** Replace the element at position [i]; out of range nothing changes. *)
Fixpoint update {A : Type} (i : nat) (f : A -> A) (l : list A) : list A :=
  match l, i with
  | [], _ => []
  | x :: l', O => f x :: l'
  | x :: l', S i' => x :: update i' f l'
  end.

(** *** The state-and-exception monad of listeners *)

Definition M (A : Type) : Type := World -> World * Result A.

Definition ret {A : Type} (a : A) : M A := fun w => (w, Ok a).

Definition bind {A B : Type} (m : M A) (k : A -> M B) : M B :=
  fun w =>
    match m w with
    | (w', Ok a) => k a w'
    | (w', Throw e) => (w', Throw e)
    end.

Definition lift {A : Type} (r : Result A) : M A := fun w => (w, r).

Definition gets {A : Type} (f : World -> A) : M A := fun w => (w, Ok (f w)).

Definition modify (f : World -> World) : M unit := fun w => (f w, Ok tt).

(** lodash's [_.forEach] over an array-like, for an iteratee that
    never returns [false]: the iteratee is called with each value and
    its index, in order.  [acc] carries the variables of the
    enclosing scope that the iteratee assigns. *)
Fixpoint forEach {A V : Type} (i : nat) (l : list A)
         (f : V -> A -> nat -> M V) (acc : V) : M V :=
  match l with
  | [] => ret acc
  | x :: l' => bind (f acc x i) (forEach (S i) l' f)
  end.

(** [document.getElementById]: the first element in tree order. *)
Definition getElementById (i : string) : M (option Element) :=
  gets (fun w => find (fun el => String.eqb (id el) i) (document w)).

(** [history.replaceState(null, '', url)].  The browser resolves
    [url] against the URL of the document and throws a SecurityError
    unless the result parses and is a URL the document may have its
    URL rewritten to (same scheme, credentials, host and port; a
    pathname that starts with [//] names another host).  That check
    is the browser's: [canRewriteURL] holds its answer for every
    [url].  When it passes, the current entry is replaced. *)
Definition replaceState (url : string) : M unit :=
  fun w =>
    if canRewriteURL w url
    then (log (ReplaceState url)
              (set_history (fun h => mkHistory (back h) url (forward h)) w),
          Ok tt)
    else (w, Throw SecurityError).

End Dom.

Declare Scope dom_scope.
Delimit Scope dom_scope with dom.
Notation "x <- c ;; k" := (Dom.bind c (fun x => k))
(at level 61, c at next level, right associativity) : dom_scope.
Notation "c ;; k" := (Dom.bind c (fun _ => k))
(at level 61, right associativity) : dom_scope.

(* ------------------------------------------------------------------ *)
(** ** The effect of [DocTemplate]: listeners of the table of contents *)

Module Doc.
Import JS Dom.
Local Open Scope dom_scope.

(** What an event may have for its [target]: a link of the table of
    contents, or a node that is no link (an element inside a link,
    such as the [code] of a heading, which is the target when it is
    what was clicked; or the document, for a scroll event).  Such a
    node has no [href] property. *)
Inductive Node : Type :=
| Link (a : Anchor)
| NotLink (name : string).

(** [node.href], or [undefined]. *)
Definition hrefOf (n : Node) : option string :=
  match n with
  | Link a => Some (href a)
  | NotLink _ => None
  end.

(** An event, as far as the listeners read it. *)
Record Event : Type := mkEvent {
  target : Node
}.

Definition preventDefault (e : Event) : M unit := modify (log PreventDefault).

(** micell's [scrollY()] and [scrollTo(options)]. *)
Definition scrollY : M Q := gets pageYOffset.

Definition scrollTo (x y : Q) (behavior : string) : M unit :=
  modify (log (ScrollTo x y behavior)).

Definition Qlt_bool (x y : Q) : bool := negb (Qle_bool y x).

(** [anchor.classList.remove(token)] and [.add(token)] for the
    anchor at position [i] of the node list. *)
Definition classList_remove (i : nat) (token : string) : M unit :=
  modify (set_anchors (update i (fun a =>
    mkAnchor (href a) (remove token (classList a)) (listeners a)))).

Definition classList_add (i : nat) (token : string) : M unit :=
  modify (set_anchors (update i (fun a =>
    mkAnchor (href a) (add token (classList a)) (listeners a)))).

Definition addEventListener (i : nat) (f : Listener) : M unit :=
  modify (set_anchors (update i (fun a =>
    mkAnchor (href a) (classList a) (addListener f (listeners a))))).

Definition removeEventListener (i : nat) (f : Listener) : M unit :=
  modify (set_anchors (update i (fun a =>
    mkAnchor (href a) (classList a) (removeListener f (listeners a))))).

(** [tocEl.current.querySelectorAll('a[href]')] *)
Definition querySelectorAll : M (list Anchor) := gets anchors.

(** Lines 209-222. *)
Definition onClick (location : Location) (e : Event) : M unit :=
  preventDefault e ;;
  let anchor := target e in               (* [e.target as HTMLAnchorElement] *)
  href <- lift (match hrefOf anchor with  (* [anchor.href.indexOf]: a method *)
                | Some href => Ok href    (* call on [undefined] throws *)
                | None => Throw TypeError
                end) ;;
  let hashIndex := indexOf href "#" in
  let hash := slice href (hashIndex + 1) in
  id <- lift (decodeURIComponent hash) ;;
  el <- getElementById id ;;
  match el with
  | None => ret tt
  | Some el =>
      let top := top el in
      sy <- scrollY ;;
      let y := (sy + top - 102)%Q in
      replaceState (pathname location ++ search location ++ "#" ++ hash) ;;
      scrollTo 0 y "smooth"
  end.

(** Lines 231-241: the iteratee of the loop over the anchors;
    [activeAnchor] is the variable of the enclosing handler, holding
    the position of an anchor or [null]. *)
Definition onScroll_each (activeAnchor : option nat) (anchor : Anchor) (i : nat)
  : M (option nat) :=
  let hashIndex := indexOf (href anchor) "#" in
  id <- lift (decodeURIComponent (slice (href anchor) (hashIndex + 1))) ;;
  el <- getElementById id ;;
  match el with
  | None => ret activeAnchor
  | Some el =>
      let top := top el in
      classList_remove i "active" ;;
      h <- gets innerHeight ;;
      if Qlt_bool top (h / 4)%Q then ret (Some i) else ret activeAnchor
  end.

(** Lines 229-241: the loop, returning the final [activeAnchor]. *)
Definition onScroll_loop : M (option nat) :=
  anchors <- querySelectorAll ;;
  forEach 0 anchors onScroll_each None.

(** Lines 228-242: the function handed to [_.throttle]. *)
Definition onScroll_body : M unit :=
  cur <- gets tocEl ;;
  if negb cur then ret tt
  else
    activeAnchor <- onScroll_loop ;;
    match activeAnchor with
    | Some i => classList_add i "active"
    | None => ret tt
    end.

(** Modelled from the spec: lodash's [_.throttle] is imported by the
    template and is not part of it.  The spec has the wrapper
    leading-and-trailing: a call outside the wait window runs the
    handler at once, later calls within the window are coalesced
    into at most one pending invocation, and the throttle timer makes
    that invocation when it expires.  Time itself is left out:
    [timers] lists the wrappers whose timer is running, each with the
    flag of a pending call; a call that finds no timer running is
    taken to come outside the window; and the expiry of a timer is an
    event of its own, [timerExpired].  Only the wrapper's [cancel]
    method, which the template never calls, stops a running timer. *)
Fixpoint lookupTimer (run : nat) (t : list (nat * bool)) : option bool :=
  match t with
  | [] => None
  | (r, p) :: t' => if Nat.eqb r run then Some p else lookupTimer run t'
  end.

(** Modelled from the spec: a call within the window is coalesced into
    the pending one. *)
Definition markPending (run : nat) (t : list (nat * bool)) : list (nat * bool) :=
  map (fun rp => if Nat.eqb (fst rp) run then (run, true) else rp) t.

(** Modelled from the spec: the timer of the wrapper has expired. *)
Definition clearTimer (run : nat) (t : list (nat * bool)) : list (nat * bool) :=
  filter (fun rp => negb (Nat.eqb (fst rp) run)) t.

(** Modelled from the spec: a call of the throttled function
    (leading edge, or coalesced). *)
Definition throttled (run : nat) (func : M unit) : M unit :=
  fun w =>
    match lookupTimer run (timers w) with
    | Some _ => (set_timers (markPending run) w, Ok tt)
    | None => func (set_timers (fun t => (t ++ [(run, false)])%list) w)
    end.

(** Modelled from the spec: the expiry of the throttle timer
    (trailing edge). *)
Definition timerExpired (run : nat) (func : M unit) : M unit :=
  fun w =>
    match lookupTimer run (timers w) with
    | Some pending =>
        let w' := set_timers (clearTimer run) w in
        if pending then func w' else (w', Ok tt)
    | None => (w, Ok tt)
    end.

(** Line 227: [const onScroll = _.throttle(() => {...}, 100)], for the
    closure of effect run [run]. *)
Definition onScroll (run : nat) : M unit := throttled run onScroll_body.

(** What the cleanup function closes over: the listeners of its run
    and the node list [anchors] queried at line 208. *)
Record Cleanup : Type := mkCleanup {
  c_run : nat;
  c_location : Location;
  c_anchors : list Anchor
}.

(** Lines 206-252: the function passed to [useEffect], for the
    [run]-th run; it returns the cleanup, or nothing when the ref is
    not set. *)
Definition effect (run : nat) (location : Location) : M (option Cleanup) :=
  cur <- gets tocEl ;;
  if negb cur then ret None
  else
    anchors <- querySelectorAll ;;
    forEach 0 anchors
      (fun _ _ i => addEventListener i (OnClick run location)) tt ;;
    modify (set_scrollListeners (addListener (OnScroll run))) ;;
    onScroll run ;;
    ret (Some (mkCleanup run location anchors)).

(** Lines 246-251. *)
Definition cleanup (c : Cleanup) : M unit :=
  modify (set_scrollListeners (removeListener (OnScroll (c_run c)))) ;;
  forEach 0 (c_anchors c)
    (fun _ _ i => removeEventListener i (OnClick (c_run c) (c_location c))) tt.

(** *** Event dispatch

    The browser calls the listeners registered on the target in the
    order of registration; an exception that leaves a listener is
    reported and the dispatch goes on. *)
Definition run_listener (m : M unit) (w : World) : World :=
  match m w with
  | (w', Ok _) => w'
  | (w', Throw e) => log (Uncaught e) w'
  end.

Definition call (f : Listener) (e : Event) : M unit :=
  match f with
  | OnClick _ location => onClick location e
  | OnScroll run => onScroll run
  end.

Definition dispatch (fs : list Listener) (e : Event) (w : World) : World :=
  fold_left (fun w f => run_listener (call f e) w) fs w.

(** A click on the link at position [i]: on the link itself
    ([inner = None]) or on an element inside it, which is then the
    target of the event that reaches the listeners of the link. *)
Definition dispatchClick (i : nat) (inner : option string) (w : World) : World :=
  match nth_error (anchors w) i with
  | Some a =>
      dispatch (listeners a)
               (mkEvent (match inner with
                         | None => Link a
                         | Some name => NotLink name
                         end)) w
  | None => w
  end.

(** A scroll event on the window; scroll listeners do not read it. *)
Definition dispatchScroll (w : World) : World :=
  dispatch (scrollListeners w) (mkEvent (NotLink "#document")) w.

(** The throttle timer of run [run] expires. *)
Definition fireTimer (run : nat) (w : World) : World :=
  run_listener (timerExpired run onScroll_body) w.

(** The anchor bears the marker. *)
Definition active (a : Anchor) : bool := contains "active" (classList a).

Definition activeCount (l : list Anchor) : nat :=
  List.length (filter active l).

(** The fragment the listeners take from an [href] (lines 212-213
    and 232-233): everything after the first ['#']. *)
Definition fragment (href : string) : string :=
  slice href (indexOf href "#" + 1).

End Doc.

(* ------------------------------------------------------------------ *)
(** ** The render output of [DocTemplate] *)

Module Render.
Import JS Dom.

Record Frontmatter : Type := mkFrontmatter {
  title : string;
  author : option string;
  toc : option bool;
  fm_createdAt : option string;       (* [frontmatter.createdAt] *)
  fm_updatedAt : option string        (* [frontmatter.updatedAt] *)
}.

Record Fields : Type := mkFields {
  type : string;
  createdAt : option string;
  updatedAt : option string;
  prevSlug : option string;
  prevTitle : option string;
  nextSlug : option string;
  nextTitle : option string
}.

Record MarkdownRemark : Type := mkMarkdownRemark {
  html : string;
  frontmatter : Frontmatter;
  tableOfContents : string;
  fields : Fields
}.

(** [siteConfig.doc]: the localised labels. *)
Record DocLabels : Type := mkDocLabels {
  postAt : string;
  updatedAtLabel : string;            (* [doc.updatedAt] *)
  prev : string;
  next : string
}.

Record SiteConfig : Type := mkSiteConfig {
  dateFormat : string;
  doc : DocLabels
}.

(** The element tree returned by the component: a component or tag
    with its inline style, its other props as text, and its
    children; or a text child. *)
#[warnings="-register-all"] Inductive VNode : Type :=
| El (name : string) (style : list (string * string))
     (props : list (string * string)) (children : list VNode)
| Text (s : string).

(** [{cond && <X/>}]: a falsy condition renders nothing. *)
Definition when (cond : bool) (v : VNode) : list VNode :=
  if cond then [v] else [].

Definition text (s : option string) : VNode :=
  Text (match s with Some s => s | None => "" end).

(** Lines 254-260. *)
Definition justifyContent (prevSlug nextSlug : option string) : string :=
  let justifyContent := "flex-start" in
  let justifyContent :=
    if truthy prevSlug && truthy nextSlug then "space-between"
    else justifyContent in
  let justifyContent :=
    if negb (truthy prevSlug) && truthy nextSlug then "flex-end"
    else justifyContent in
  justifyContent.

Section Template.

(** Collaborators outside the template: [getSiteConfig]; the sidebar
    [getSidebarData(getLocale(pathname))[type]], here
    [getSidebar pathname type]; and micell's date formatting,
    [formatDate s format] standing for
    [formatDate(new Date(s), format)]. *)
Variable getSiteConfig : string -> SiteConfig.
Variable getSidebar : string -> string -> option string.
Variable formatDate : string -> string -> string.

(** Lines 196-204 and 263-313. *)
Definition DocTemplate (data : MarkdownRemark) (location : Location) : VNode :=
  let siteConfig := getSiteConfig (pathname location) in
  let dateFormat := dateFormat siteConfig in
  let doc := doc siteConfig in
  let frontmatter := frontmatter data in
  let fields := fields data in
  let prevSlug := prevSlug fields in
  let nextSlug := nextSlug fields in
  let justifyContent := justifyContent prevSlug nextSlug in
  El "Layout" [] [("location", String.append (pathname location) (search location))]
    [ El "SEO" [] [("title", title frontmatter)] [];
      El "Container" [] []
        ([ El "Entry" [] []
             ([ El "Title" [] [] [Text (title frontmatter)] ]
              ++ when (truthy (author frontmatter)
                       && truthy (fm_createdAt frontmatter)
                       && truthy (createdAt fields))
                   (El "div" [] []
                      [ El "Author" [] [] [text (author frontmatter)];
                        El "span" [] [] [Text (postAt doc)];
                        El "CreateDate" []
                           [("dateTime", match createdAt fields with
                                         | Some d => d | None => "" end)]
                           [Text (formatDate
                                    (match createdAt fields with
                                     | Some d => d | None => "" end)
                                    dateFormat)] ])
              ++ [ El "MarkdownContent" [] [("html", html data)] [] ]
              ++ when (truthy (fm_updatedAt frontmatter)
                       && truthy (updatedAt fields))
                   (El "Bottom" [] []
                      [ El "UpdateDateLabel" [] [] [Text (updatedAtLabel doc)];
                        El "UpdateDate" []
                           [("dateTime", match updatedAt fields with
                                         | Some d => d | None => "" end)]
                           [Text (formatDate
                                    (match updatedAt fields with
                                     | Some d => d | None => "" end)
                                    dateFormat)] ])
              ++ when (truthy prevSlug || truthy nextSlug)
                   (El "DocNav" [("justifyContent", justifyContent)] []
                      (when (truthy prevSlug)
                         (El "DocNavItem" [] []
                            [ El "NavLabel" [] [] [Text (prev doc)];
                              El "NavTitle" [] []
                                [ El "Link" []
                                    [("to", match prevSlug with
                                            | Some s => s | None => "" end)]
                                    [Text "← "; text (prevTitle fields)] ] ])
                       ++ when (truthy nextSlug)
                         (El "DocNavItem" [] []
                            [ El "NavLabel" [] [] [Text (next doc)];
                              El "NavTitle" [] []
                                [ El "Link" []
                                    [("to", match nextSlug with
                                            | Some s => s | None => "" end)]
                                    [text (nextTitle fields); Text " →"] ] ])))%list);
           El "Toc"
             [("visibility", match toc frontmatter with
                             | Some false => "hidden"
                             | _ => "visible"
                             end)]
             [("dangerouslySetInnerHTML", tableOfContents data)] [] ]
         ++ match getSidebar (pathname location) (type fields) with
            | Some nav => [ El "Sidebar" []
                              [("nav", nav);
                               ("location", String.append (pathname location) (search location))] [] ]
            | None => []
            end)%list ].

End Template.

(** The elements of a tree that were rendered from the component or
    tag [name], in document order. *)
Fixpoint select (name : string) (v : VNode) : list VNode :=
  match v with
  | Text _ => []
  | El n st pr ch =>
      ((if String.eqb n name then [v] else []) ++ flat_map (select name) ch)%list
  end.

Definition styleOf (v : VNode) : list (string * string) :=
  match v with
  | El _ st _ _ => st
  | Text _ => []
  end.

Definition propsOf (v : VNode) : list (string * string) :=
  match v with
  | El _ _ pr _ => pr
  | Text _ => []
  end.

End Render.

(* ------------------------------------------------------------------ *)
(** ** Vocabulary of the specification *)

Module Spec.
Import JS Dom Doc.

(** The character occurs in the string. *)
Fixpoint occurs (c : ascii) (s : string) : bool :=
  match s with
  | EmptyString => false
  | String a s' => Ascii.eqb a c || occurs c s'
  end.

(** The fragment of the anchor is a well-formed percent-encoding. *)
Definition wellFormed (a : Anchor) : bool :=
  match decodeURIComponent (fragment (href a)) with
  | Ok _ => true
  | Throw _ => false
  end.

(** The element of the document with the given id, if there is one. *)
Definition elementWithId (w : World) (i : string) : option Element :=
  find (fun el => String.eqb (id el) i) (document w).

(** The heading an anchor points to: the element whose id is the
    decoded fragment, if there is one. *)
Definition targetOf (w : World) (a : Anchor) : option Element :=
  match decodeURIComponent (fragment (href a)) with
  | Ok i => elementWithId w i
  | Throw _ => None
  end.

Definition resolves (w : World) (a : Anchor) : bool :=
  match targetOf w a with
  | Some _ => true
  | None => false
  end.

(** The target heading lies above one quarter of the viewport height. *)
Definition Qualifies (w : World) (a : Anchor) : Prop :=
  exists el, targetOf w a = Some el /\ (top el < innerHeight w / 4)%Q.

(** Position [i] holds the last anchor, in document order, that
    qualifies. *)
Definition LastQualifying (w : World) (i : nat) : Prop :=
  (exists a, nth_error (anchors w) i = Some a /\ Qualifies w a) /\
  forall j b, i < j -> nth_error (anchors w) j = Some b -> ~ Qualifies w b.

(** No anchor whose target resolves to no element bears the marker. *)
Definition noStaleMarker (w : World) : bool :=
  forallb (fun a => implb (active a) (resolves w a)) (anchors w).

(** The anchor with the marker taken off. *)
Definition unmark (a : Anchor) : Anchor :=
  mkAnchor (href a) (remove "active" (classList a)) (listeners a).

(** The anchor with the marker put on. *)
Definition mark (a : Anchor) : Anchor :=
  mkAnchor (href a) (add "active" (classList a)) (listeners a).

(** What one completed pass of the loop leaves of an anchor. *)
Definition cleared (w : World) (a : Anchor) : Anchor :=
  if resolves w a then unmark a else a.

(** The loop of the scroll handler as a function of the anchors still
    to visit: the anchors as it leaves them, and the final
    [activeAnchor] or the exception. *)
Fixpoint scan (w : World) (i : nat) (l : list Anchor) (acc : option nat)
  : list Anchor * Result (option nat) :=
  match l with
  | [] => ([], Ok acc)
  | a :: l' =>
      match decodeURIComponent (fragment (href a)) with
      | Throw e => (a :: l', Throw e)
      | Ok _ =>
          match targetOf w a with
          | None => let (r, o) := scan w (S i) l' acc in (a :: r, o)
          | Some el =>
              let acc' := if Qlt_bool (top el) (innerHeight w / 4)%Q
                          then Some i else acc in
              let (r, o) := scan w (S i) l' acc' in (unmark a :: r, o)
          end
      end
  end.

(** The layout rule of the navigation row, in the spec's words: both
    siblings, only a next sibling, otherwise. *)
Definition justifyRule (hasPrev hasNext : bool) : string :=
  match hasPrev, hasNext with
  | true, true => "space-between"
  | false, true => "flex-end"
  | _, _ => "flex-start"
  end.

(** The visibility of the table-of-contents panel, in the spec's
    words: hidden when [frontmatter.toc] is [false], visible when it
    is [true] or absent. *)
Definition visibilityRule (toc : option bool) : string :=
  match toc with
  | Some false => "hidden"
  | Some true => "visible"
  | None => "visible"
  end.

Definition with_anchors (l : list Anchor) (w : World) : World :=
  set_anchors (fun _ => l) w.

Definition with_document (d : list Element) (w : World) : World :=
  mkWorld (tocEl w) (anchors w) d (innerHeight w)
          (pageYOffset w) (history w) (scrollListeners w) (timers w) (calls w)
          (canRewriteURL w).

Definition registered (f : Listener) (l : list Listener) : bool :=
  existsb (Listener_eqb f) l.

(** Which listeners are registered where: on the window for 'scroll',
    and on each anchor for 'click'. *)
Definition registrations (w : World) : list Listener * list (list Listener) :=
  (scrollListeners w, map listeners (anchors w)).

(** The anchor with a click listener taken off. *)
Definition unlisten (f : Listener) (a : Anchor) : Anchor :=
  mkAnchor (href a) (classList a) (removeListener f (listeners a)).

(** Two states of an anchor that differ at most in the marker: the
    same [href], the same listeners, and the same class names other
    than [active], in the same order. *)
Definition sameButMarker (a a' : Anchor) : Prop :=
  href a' = href a /\ listeners a' = listeners a /\
  remove "active" (classList a') = remove "active" (classList a).

(** What the scroll handler reads of an anchor. *)
Definition look (a : Anchor) : string * list string :=
  (href a, classList a).




(** The closures of a run of the effect are registered nowhere yet. *)
Definition freshRun (run : nat) (location : Location) (w : World) : bool :=
  negb (registered (OnScroll run) (scrollListeners w)) &&
  forallb (fun a => negb (registered (OnClick run location) (listeners a)))
          (anchors w).

(** What the listeners could change and no event on the page may:
    the registered listeners, the anchors' [href]s, and the history
    entries behind and ahead of the current one. *)
Definition frame (w : World) :=
  (registrations w, map href (anchors w),
   back (history w), forward (history w)).

(** The anchor with the click listener put on. *)
Definition listen (f : Listener) (a : Anchor) : Anchor :=
  mkAnchor (href a) (classList a) (addListener f (listeners a)).

(** No anchor has a click listener. *)
Definition noClickListeners (w : World) : bool :=
  forallb (fun a => match listeners a with [] => true | _ :: _ => false end)
          (anchors w).

(** The same elements, none of them lower in the viewport than
    before: what scrolling down the page does to the document. *)
Definition movedUp (d d' : list Element) : Prop :=
  Forall2 (fun e e' => id e' = id e /\ (top e' <= top e)%Q) d d'.

(** The number of anchors that bear the marker although their target
    resolves to no element. *)
Definition staleCount (w : World) : nat :=
  activeCount (filter (fun a => negb (resolves w a)) (anchors w)).

(** The browser refuses the URL that a click on the link gives to
    [replaceState]: the target of the link exists and the URL
    [pathname + search + '#' + fragment] cannot be taken. *)
Definition refused (w : World) (location : Location) (a : Anchor) : bool :=
  match targetOf w a with
  | Some _ => negb (canRewriteURL w (pathname location ++ search location
                                     ++ "#" ++ fragment (href a)))
  | None => false
  end.

End Spec.

(* ------------------------------------------------------------------ *)
(** ** Sample pages *)

Module Sample.
Import JS Dom Doc Spec.

Definition location : Location := mkLocation "/docs/intro.html" "?v=1".

Definition anchor (href : string) : Anchor := mkAnchor href [] [].

(** The browser's answer for the sample site: a reference that starts
    with a single [/] stays on the site; one that starts with [//]
    names its own host, in the samples always another one. *)
Definition onSite (url : string) : bool := negb (String.prefix "//" url).

(** The location of a document whose path starts with [//]. *)
Definition doubleSlash : Location :=
  mkLocation "//other.example/docs/intro.html" "".

(** The page of the spec's example: four headings at the offsets
    500, 50, -10 and 300, in a viewport 600 high. *)
Definition page : World :=
  mkWorld true
    [ anchor "https://goproxy.io/docs/intro.html#install";
      anchor "https://goproxy.io/docs/intro.html#usage";
      anchor "https://goproxy.io/docs/intro.html#faq";
      anchor "https://goproxy.io/docs/intro.html#license" ]
    [ mkElement "install" 500; mkElement "usage" 50;
      mkElement "faq" (-10); mkElement "license" 300 ]
    600 40 (mkHistory ["/"] "/docs/intro.html?v=1" []) [] [] [] onSite.

(** A table of contents with a link whose fragment is not a
    percent-encoding, before a link to a heading that has scrolled
    past the top quarter. *)
Definition malformedPage : World :=
  mkWorld true
    [ anchor "https://goproxy.io/docs/intro.html#faq";
      anchor "https://goproxy.io/docs/intro.html#100%";
      anchor "https://goproxy.io/docs/intro.html#usage" ]
    [ mkElement "faq" (-10); mkElement "usage" 50 ]
    600 40 (mkHistory ["/"] "/docs/intro.html?v=1" []) [] [] [] onSite.

(** A link to a heading that is no longer in the document still bears
    the marker; the next heading has scrolled past the top quarter. *)
Definition stalePage : World :=
  mkWorld true
    [ mkAnchor "https://goproxy.io/docs/intro.html#gone" ["active"] [];
      anchor "https://goproxy.io/docs/intro.html#faq" ]
    [ mkElement "faq" (-10) ]
    600 40 (mkHistory ["/"] "/docs/intro.html?v=1" []) [] [] [] onSite.

(** A link without fragment whose URL has an escape, on a page with an
    element whose id is the decoded URL. *)
Definition escapedPage : World :=
  mkWorld true
    [ anchor "https://goproxy.io/docs/%41.html" ]
    [ mkElement "https://goproxy.io/docs/A.html" 300 ]
    600 40 (mkHistory ["/"] "/docs/intro.html?v=1" []) [] [] [] onSite.

(** Clicks on a link to a heading of the page, and on a link to a
    heading the page does not have. *)
Definition faqLink : Anchor := anchor "https://goproxy.io/docs/intro.html#faq".

Definition brokenLink : Anchor := anchor "https://goproxy.io/docs/intro.html#gone".

Definition malformedLink : Anchor :=
  anchor "https://goproxy.io/docs/intro.html#100%".

Definition escapedLink : Anchor := anchor "https://goproxy.io/docs/%41.html".

Definition faqClick : Event := mkEvent (Link faqLink).

Definition brokenClick : Event := mkEvent (Link brokenLink).

Definition malformedClick : Event := mkEvent (Link malformedLink).

Definition escapedClick : Event := mkEvent (Link escapedLink).

(** A click on the [code] element inside a link: the event that
    reaches the listener of the link has that element for its
    target. *)
Definition codeClick : Event := mkEvent (NotLink "code").

(** A page with a link to a heading and a link to a heading the page
    does not have, both without marker. *)
Definition brokenPage : World :=
  mkWorld true [ faqLink; brokenLink ] [ mkElement "faq" (-10) ]
    600 40 (mkHistory ["/"] "/docs/intro.html?v=1" []) [] [] [] onSite.

(** The sample page after the effect has run, a scroll event has come
    in within the throttle window, and the headings have moved up. *)
Definition attached : World * Result (option Cleanup) :=
  effect 0 location page.

Definition scrolled : World :=
  with_document
    [ mkElement "install" 100; mkElement "usage" (-350);
      mkElement "faq" (-410); mkElement "license" (-100) ]
    (dispatchScroll (fst attached)).

Definition pageCleanup : Cleanup :=
  mkCleanup 0 location (anchors page).

Definition getSiteConfig (pathname : string) : Render.SiteConfig :=
  Render.mkSiteConfig "YYYY-MM-DD"
    (Render.mkDocLabels "posted at" "Last updated" "Previous" "Next").

Definition getSidebar (pathname type : string) : option string :=
  if String.eqb type "docs" then Some "docs" else None.

Definition formatDate (date format : string) : string := date.

Definition data (toc : option bool) (prevSlug nextSlug : option string)
  : Render.MarkdownRemark :=
  Render.mkMarkdownRemark "<p>body</p>"
    (Render.mkFrontmatter "Intro" None toc None None)
    "<ul><li><a href=#install>Install</a></li></ul>"
    (Render.mkFields "docs" None None prevSlug (Some "Previous")
                     nextSlug (Some "Next")).

(** The sample page with the reference to the table of contents not
    set. *)
Definition unmounted : World :=
  mkWorld false (anchors page) (document page) 600 40
          (mkHistory ["/"] "/docs/intro.html?v=1" []) [] [] [] onSite.

(** The sample page with listeners of an earlier run 7 still on it. *)
Definition crowded : World :=
  mkWorld true
    (map (fun a => mkAnchor (href a) (classList a) [OnClick 7 location])
         (anchors page))
    (document page) 600 40 (mkHistory ["/"] "/docs/intro.html?v=1" [])
    [OnScroll 7] [] [] onSite.

(** A signed and dated post between two others; and the same post
    without the date in its front matter. *)
Definition post : Render.MarkdownRemark :=
  Render.mkMarkdownRemark "<p>body</p>"
    (Render.mkFrontmatter "Intro" (Some "Ada") None
                          (Some "2020-01-01") (Some "2020-02-01"))
    "<ul></ul>"
    (Render.mkFields "blog" (Some "2020-01-02") (Some "2020-02-02")
                     (Some "/a.html") (Some "A") (Some "/b.html") (Some "B")).

Definition undatedPost : Render.MarkdownRemark :=
  Render.mkMarkdownRemark "<p>body</p>"
    (Render.mkFrontmatter "Intro" (Some "Ada") None None None)
    "<ul></ul>"
    (Render.fields post).

(** The sample page scrolled down by 400. *)
Definition scrolledDown : World :=
  with_document
    [ mkElement "install" 100; mkElement "usage" (-350);
      mkElement "faq" (-410); mkElement "license" (-100) ]
    page.

End Sample.

(** Case analysis on every condition the render output depends on. *)
Ltac render_cases data getSidebar :=
  unfold Render.DocTemplate, Render.justifyContent; cbv zeta;
  destruct (JS.truthy (Render.prevSlug (Render.fields data))),
           (JS.truthy (Render.nextSlug (Render.fields data))),
           (JS.truthy (Render.author (Render.frontmatter data))),
           (JS.truthy (Render.fm_createdAt (Render.frontmatter data))),
           (JS.truthy (Render.createdAt (Render.fields data))),
           (JS.truthy (Render.fm_updatedAt (Render.frontmatter data))),
           (JS.truthy (Render.updatedAt (Render.fields data))),
           (getSidebar _ _);
  vm_compute; reflexivity.

(* ------------------------------------------------------------------ *)
(** ** Strings: [indexOf], [slice], [decodeURIComponent] *)

Section Strings.
Import JS Spec.

Lemma indexOf_from_absent (c : ascii) (s : string) (k : Z) :
  occurs c s = false -> indexOf_from k c s = (-1)%Z.
Proof.
  revert k; induction s as [|a s IH]; intros k H; simpl in *.
  - reflexivity.
  - apply orb_false_iff in H as [Ha Hs]. rewrite Ha. now apply IH.
Qed.

Lemma indexOf_from_first (c : ascii) (p f : string) (k : Z) :
  occurs c p = false ->
  indexOf_from k c (p ++ String c f) = (k + Z.of_nat (String.length p))%Z.
Proof.
  revert k; induction p as [|a p IH]; intros k H; simpl in *.
  - rewrite Ascii.eqb_refl. lia.
  - apply orb_false_iff in H as [Ha Hp]. rewrite Ha, (IH _ Hp). lia.
Qed.

Lemma drop_app (p s : string) : drop (String.length p) (p ++ s) = s.
Proof. induction p; simpl; auto. Qed.

Lemma slice_0 (s : string) : slice s 0 = s.
Proof.
  unfold slice. simpl.
  replace (Z.min 0 (Z.of_nat (String.length s))) with 0%Z by lia.
  reflexivity.
Qed.

Lemma string_length_app (p s : string) :
  String.length (p ++ s) = String.length p + String.length s.
Proof. induction p; simpl; auto. Qed.

(** Without a ['#'] the listeners take the whole [href] for the
    fragment. *)
Lemma fragment_without_hash (h : string) :
  occurs "#" h = false -> Doc.fragment h = h.
Proof.
  intro H. unfold Doc.fragment, indexOf.
  rewrite (indexOf_from_absent _ _ _ H). apply slice_0.
Qed.

(** The fragment is what follows the first ['#']. *)
Lemma fragment_after_hash (p f : string) :
  occurs "#" p = false -> Doc.fragment (p ++ String "#" f) = f.
Proof.
  intro H. unfold Doc.fragment, indexOf.
  rewrite (indexOf_from_first _ _ _ _ H). unfold slice.
  rewrite string_length_app. simpl String.length.
  replace (0 + Z.of_nat (String.length p) + 1 <? 0)%Z with false
    by (symmetry; apply Z.ltb_ge; lia).
  replace (Z.to_nat (Z.min (0 + Z.of_nat (String.length p) + 1)
                           (Z.of_nat (String.length p + S (String.length f)))))
    with (S (String.length p)) by lia.
  change (S (String.length p)) with (String.length (String "#" p)).
  clear H. induction p as [|a p IH]; simpl in *; auto.
Qed.

Lemma occurs_app (c : ascii) (p s : string) :
  occurs c (p ++ s) = occurs c p || occurs c s.
Proof.
  induction p as [|a p IH]; simpl; auto. now rewrite IH, orb_assoc.
Qed.

(** A string without ['%'] decodes to itself. *)
Lemma decode_plain (s : string) :
  occurs "%" s = false -> decode Start s = Some s.
Proof.
  induction s as [|a s IH]; intro H; simpl in *.
  - reflexivity.
  - apply orb_false_iff in H as [Ha Hs].
    specialize (IH Hs).
    destruct a as [[] [] [] [] [] [] [] []]; try discriminate Ha;
      rewrite IH; reflexivity.
Qed.

End Strings.

(* ------------------------------------------------------------------ *)
(** ** The click listener *)

Section Click.
Import JS Dom Doc Spec.

(** [decodeURIComponent] throws nothing but a URIError. *)
Lemma decodeURIComponent_throws (s : string) (x : Exn) :
  decodeURIComponent s = Throw x -> x = URIError.
Proof.
  unfold decodeURIComponent. destruct (decode Start s); [discriminate|].
  now intros [= <-].
Qed.

(** The click listener, case by case. *)
Lemma onClick_cases (location : Location) (e : Event) (w : World) :
  onClick location e w =
  match hrefOf (target e) with
  | None => (log PreventDefault w, Throw TypeError)
  | Some h =>
      match decodeURIComponent (fragment h) with
      | Throw x => (log PreventDefault w, Throw x)
      | Ok i =>
          match elementWithId w i with
          | None => (log PreventDefault w, Ok tt)
          | Some el =>
              let url := pathname location ++ search location ++ "#"
                         ++ fragment h in
              if canRewriteURL w url
              then (log (ScrollTo 0 (pageYOffset w + top el - 102)%Q "smooth")
                      (log (ReplaceState url)
                         (set_history
                            (fun h => mkHistory (back h) url (forward h))
                            (log PreventDefault w))),
                    Ok tt)
              else (log PreventDefault w, Throw SecurityError)
          end
      end
  end.
Proof.
  unfold onClick, bind, preventDefault, modify, lift, getElementById, gets,
    fragment, elementWithId; simpl.
  destruct (hrefOf (target e)) as [h|]; [|reflexivity]. simpl.
  destruct (decodeURIComponent _) as [i|x]; [|reflexivity].
  simpl. destruct (find _ _) as [el|]; [|reflexivity].
  unfold scrollY, gets, replaceState. simpl.
  destruct (canRewriteURL w _); reflexivity.
Qed.

(** Default navigation is prevented first, whatever follows. *)
Lemma onClick_prevents_default (location : Location) (e : Event) (w : World) :
  exists more,
    calls (fst (onClick location e w)) = (calls w ++ PreventDefault :: more)%list.
Proof.
  rewrite onClick_cases.
  destruct (hrefOf (target e)) as [h|]; [|now exists []].
  destruct (decodeURIComponent _) as [i|x]; [|now exists []].
  destruct (elementWithId w i); [|now exists []]. cbv zeta.
  destruct (canRewriteURL w _); simpl; [|now exists []].
  eexists. rewrite <- !app_assoc. simpl. reflexivity.
Qed.

(** A click on an element inside a link, whatever the link: the
    listener prevents the default, finds no [href] on the element and
    throws. *)
Lemma click_inside_link (location : Location) (name : string) (w : World) :
  onClick location (mkEvent (NotLink name)) w
  = (log PreventDefault w, Throw TypeError).
Proof. now rewrite onClick_cases. Qed.

(** A click on a link itself whose fragment decodes to an id that no
    element has: nothing but the prevention of the default. *)
Lemma onClick_broken_link
      (location : Location) (a : Anchor) (w : World) (i : string) :
  decodeURIComponent (fragment (href a)) = Ok i ->
  elementWithId w i = None ->
  onClick location (mkEvent (Link a)) w = (log PreventDefault w, Ok tt).
Proof. intros Hd Hn. rewrite onClick_cases. simpl. now rewrite Hd, Hn. Qed.

(** A click on a link itself whose fragment resolves to an element,
    with a URL the browser accepts. *)
Lemma onClick_heading_link
      (location : Location) (a : Anchor) (w : World) (i : string) (el : Element) :
  decodeURIComponent (fragment (href a)) = Ok i ->
  elementWithId w i = Some el ->
  canRewriteURL w (pathname location ++ search location ++ "#"
                   ++ fragment (href a)) = true ->
  onClick location (mkEvent (Link a)) w
  = (log (ScrollTo 0 (pageYOffset w + top el - 102)%Q "smooth")
       (log (ReplaceState (pathname location ++ search location ++ "#"
                           ++ fragment (href a)))
          (set_history
             (fun h => mkHistory (back h)
                         (pathname location ++ search location ++ "#"
                          ++ fragment (href a))
                         (forward h))
             (log PreventDefault w))),
     Ok tt).
Proof.
  intros Hd He Hu. rewrite onClick_cases. simpl hrefOf. cbv iota.
  rewrite Hd, He. cbv zeta. now rewrite Hu.
Qed.

Lemma url_with_hash (p q f : string) :
  p ++ q ++ "#" ++ f = (p ++ q) ++ String "#" f.
Proof. induction p as [|c p IH]; simpl; [reflexivity | now rewrite <- IH]. Qed.

Lemma fragment_of_url (p q f : string) :
  occurs "#" (p ++ q) = false -> fragment (p ++ q ++ String "#" f) = f.
Proof.
  intro H. pose proof (url_with_hash p q f) as E. simpl in E.
  rewrite E. now apply fragment_after_hash.
Qed.

(** C3.  The code breaks the claim.  A click on an element inside a
    link reaches the listener of the link with that element for its
    target; the listener prevents the default navigation, finds no
    [href] on the element and throws a TypeError, for a broken link
    as for any other.  A click on the link itself is the silent no-op
    of the claim: nothing but the prevention of the default, no
    scroll, no history change, no exception. *)
Theorem click_inside_broken_link_throws
        (location : Location) (a : Anchor) (w : World) (i name : string) :
  decodeURIComponent (fragment (href a)) = Ok i ->
  elementWithId w i = None ->
  onClick location (mkEvent (NotLink name)) w
  = (log PreventDefault w, Throw TypeError) /\
  onClick location (mkEvent (Link a)) w = (log PreventDefault w, Ok tt).
Proof.
  intros Hd Hn. split.
  - apply click_inside_link.
  - now apply (onClick_broken_link location a w i).
Qed.

Lemma click_inside_broken_link_throws_witness :
  nth_error (anchors Sample.brokenPage) 1 = Some Sample.brokenLink /\
  decodeURIComponent (fragment (href Sample.brokenLink)) = Ok "gone" /\
  elementWithId Sample.brokenPage "gone" = None /\
  onClick Sample.location Sample.codeClick Sample.brokenPage
  = (log PreventDefault Sample.brokenPage, Throw TypeError) /\
  onClick Sample.location Sample.brokenClick Sample.brokenPage
  = (log PreventDefault Sample.brokenPage, Ok tt) /\
  calls (dispatchClick 1 (Some "code")
           (fst (effect 0 Sample.location Sample.brokenPage)))
  = [PreventDefault; Uncaught TypeError] /\
  calls (dispatchClick 1 None
           (fst (effect 0 Sample.location Sample.brokenPage)))
  = [PreventDefault].
Proof.
  destruct (click_inside_broken_link_throws
              Sample.location Sample.brokenLink Sample.brokenPage "gone" "code"
              eq_refl eq_refl) as [H1 H2].
  split; [reflexivity|]. split; [reflexivity|]. split; [reflexivity|].
  split; [exact H1|]. split; [exact H2|]. split; reflexivity.
Defined.

(** C4.  The code breaks the claim.  A click on an element inside a
    link to an existing heading reaches the listener with that element
    for its target: the listener prevents the default navigation and
    throws a TypeError, with no history entry replaced and no scroll.
    A click on the link itself does what the claim says when the
    browser accepts the URL: the default is prevented, the current
    history entry is replaced (the history keeps its length and its
    other entries) by [pathname + search + '#' + fragment], whose
    fragment is the anchor's, and one smooth scroll is requested to
    [scrollY() + top - 102].  When the browser refuses the URL,
    [replaceState] throws a SecurityError and nothing follows. *)
Theorem click_inside_heading_link_throws
        (location : Location) (a : Anchor) (w : World) (i name : string)
        (el : Element) :
  decodeURIComponent (fragment (href a)) = Ok i ->
  elementWithId w i = Some el ->
  let hash := fragment (href a) in
  let url := pathname location ++ search location ++ "#" ++ hash in
  let w' := fst (onClick location (mkEvent (Link a)) w) in
  onClick location (mkEvent (NotLink name)) w
  = (log PreventDefault w, Throw TypeError) /\
  (canRewriteURL w url = true ->
   snd (onClick location (mkEvent (Link a)) w) = Ok tt /\
   calls w' = (calls w ++ [ PreventDefault; ReplaceState url;
                            ScrollTo 0 (pageYOffset w + top el - 102)%Q
                                     "smooth" ])%list /\
   history w' = mkHistory (back (history w)) url (forward (history w)) /\
   historyLength (history w') = historyLength (history w) /\
   (occurs "#" (pathname location ++ search location) = false ->
    fragment (current (history w')) = hash)) /\
  (canRewriteURL w url = false ->
   onClick location (mkEvent (Link a)) w
   = (log PreventDefault w, Throw SecurityError)).
Proof.
  intros Hd He hash url w'. subst w'.
  split; [apply click_inside_link|]. split.
  - intro Hu.
    rewrite (onClick_heading_link location a w i el Hd He Hu).
    simpl. repeat split.
    + rewrite <- !app_assoc. reflexivity.
    + intro H.
      exact (fragment_of_url _ _ _ H).
  - intro Hu. rewrite onClick_cases. simpl hrefOf. cbv iota.
    rewrite Hd, He. cbv zeta. fold hash. fold url. now rewrite Hu.
Qed.

Lemma click_inside_heading_link_throws_witness :
  nth_error (anchors Sample.brokenPage) 0 = Some Sample.faqLink /\
  onClick Sample.location Sample.codeClick Sample.brokenPage
  = (log PreventDefault Sample.brokenPage, Throw TypeError) /\
  calls (dispatchClick 0 (Some "code")
           (fst (effect 0 Sample.location Sample.brokenPage)))
  = [PreventDefault; Uncaught TypeError] /\
  calls (dispatchClick 0 None
           (fst (effect 0 Sample.location Sample.brokenPage)))
  = [ PreventDefault; ReplaceState "/docs/intro.html?v=1#faq";
      ScrollTo 0 (40 + -10 - 102)%Q "smooth" ] /\
  onClick Sample.doubleSlash Sample.faqClick Sample.brokenPage
  = (log PreventDefault Sample.brokenPage, Throw SecurityError).
Proof.
  destruct (click_inside_heading_link_throws
              Sample.location Sample.faqLink Sample.brokenPage "faq" "code"
              (mkElement "faq" (-10)) eq_refl eq_refl) as (H1 & _ & _).
  destruct (click_inside_heading_link_throws
              Sample.doubleSlash Sample.faqLink Sample.brokenPage "faq" "code"
              (mkElement "faq" (-10)) eq_refl eq_refl) as (_ & _ & H3).
  split; [reflexivity|]. split; [exact H1|].
  split; [reflexivity|]. split; [reflexivity|].
  apply H3. reflexivity.
Defined.

(** C10, as stated, fails: the link has no ['#'] and no element has
    the [href] for its id, yet the click replaces the history entry and
    requests a scroll, because the id looked up is the decoded [href],
    which an element does have. *)
Lemma click_without_hash_counterexample :
  occurs "#" (href Sample.escapedLink) = false /\
  elementWithId Sample.escapedPage (href Sample.escapedLink) = None /\
  calls (fst (onClick Sample.location Sample.escapedClick Sample.escapedPage))
  = [ PreventDefault;
      ReplaceState "/docs/intro.html?v=1#https://goproxy.io/docs/%41.html";
      ScrollTo 0 (40 + 300 - 102)%Q "smooth" ] /\
  history (fst (onClick Sample.location Sample.escapedClick Sample.escapedPage))
  <> history Sample.escapedPage.
Proof.
  repeat split; try reflexivity. vm_compute. discriminate.
Qed.

(** C10, amended.  A click whose target is the link itself, on a link
    whose [href] has no ['#']: default navigation is prevented; the
    whole [href] is taken for the fragment and its percent-decoding is
    the id looked up (the [href] itself when it has no ['%']); when
    the decoding succeeds and no element has the decoded id, the
    history is not changed, no scroll is requested and the listener
    returns; when an element has it and the browser accepts the URL,
    the click proceeds as for any heading link. *)
Theorem click_without_hash_looks_up_decoded_href
        (location : Location) (a : Anchor) (w : World) :
  occurs "#" (href a) = false ->
  fragment (href a) = href a /\
  (exists more,
     calls (fst (onClick location (mkEvent (Link a)) w))
     = (calls w ++ PreventDefault :: more)%list) /\
  (forall i, decodeURIComponent (href a) = Ok i ->
             elementWithId w i = None ->
             onClick location (mkEvent (Link a)) w
             = (log PreventDefault w, Ok tt)) /\
  (forall i el,
     decodeURIComponent (href a) = Ok i ->
     elementWithId w i = Some el ->
     canRewriteURL w (pathname location ++ search location ++ "#" ++ href a)
     = true ->
     calls (fst (onClick location (mkEvent (Link a)) w))
     = (calls w ++
        [ PreventDefault;
          ReplaceState (pathname location ++ search location ++ "#" ++ href a);
          ScrollTo 0 (pageYOffset w + top el - 102)%Q "smooth" ])%list) /\
  (occurs "%" (href a) = false ->
   decodeURIComponent (href a) = Ok (href a)).
Proof.
  intro H. pose proof (fragment_without_hash _ H) as F.
  split; [exact F|]. split; [apply onClick_prevents_default|].
  split; [|split].
  - intros i Hd Hn. apply (onClick_broken_link location a w i);
      [now rewrite F | exact Hn].
  - intros i el Hd He Hu.
    rewrite (onClick_heading_link location a w i el);
      [| now rewrite F | exact He | now rewrite F].
    rewrite F. simpl. rewrite <- !app_assoc. reflexivity.
  - intro P. unfold decodeURIComponent. now rewrite (decode_plain _ P).
Qed.

Lemma click_without_hash_looks_up_decoded_href_witness :
  occurs "#" (href Sample.escapedLink) = false /\
  fragment (href Sample.escapedLink) = "https://goproxy.io/docs/%41.html" /\
  decodeURIComponent (href Sample.escapedLink)
  = Ok "https://goproxy.io/docs/A.html" /\
  onClick Sample.location Sample.escapedClick Sample.page
  = (log PreventDefault Sample.page, Ok tt).
Proof.
  split; [reflexivity|].
  destruct (click_without_hash_looks_up_decoded_href
              Sample.location Sample.escapedLink Sample.page)
    as (H1 & _ & H3 & _); [reflexivity|].
  split; [exact H1|]. split; [reflexivity|].
  apply (H3 "https://goproxy.io/docs/A.html"); reflexivity.
Defined.

End Click.

(* ------------------------------------------------------------------ *)
(** ** The scroll handler *)

Section Scroll.
Import JS Dom Doc Spec.

Lemma Qlt_bool_iff (x y : Q) : Qlt_bool x y = true <-> (x < y)%Q.
Proof.
  unfold Qlt_bool. rewrite negb_true_iff. split.
  - intro H. apply Qnot_le_lt. intro L. apply Qle_bool_iff in L. congruence.
  - intro H. destruct (Qle_bool y x) eqn:E; [|reflexivity].
    apply Qle_bool_iff in E. exfalso. exact (Qlt_not_le _ _ H E).
Qed.

Lemma update_app {A : Type} (f : A -> A) (done : list A) (a : A) (rest : list A) :
  update (List.length done) f (done ++ a :: rest) = (done ++ f a :: rest)%list.
Proof. induction done as [|d done IH]; simpl; [reflexivity | now rewrite IH]. Qed.

Lemma with_anchors_same (w : World) : with_anchors (anchors w) w = w.
Proof. now destruct w. Qed.

Lemma scan_set_anchors (f : list Anchor -> list Anchor) (w : World)
      (l : list Anchor) (i : nat) (acc : option nat) :
  scan (set_anchors f w) i l acc = scan w i l acc.
Proof.
  revert i acc; induction l as [|a l IH]; intros i acc; simpl; [reflexivity|].
  destruct (decodeURIComponent _); [|reflexivity].
  change (targetOf (set_anchors f w) a) with (targetOf w a).
  change (innerHeight (set_anchors f w)) with (innerHeight w).
  destruct (targetOf w a); now rewrite IH.
Qed.

(** One call of the iteratee. *)
Lemma onScroll_each_cases (acc : option nat) (a : Anchor) (i : nat) (w : World) :
  onScroll_each acc a i w =
  match decodeURIComponent (fragment (href a)) with
  | Throw x => (w, Throw x)
  | Ok _ =>
      match targetOf w a with
      | None => (w, Ok acc)
      | Some el =>
          (set_anchors (update i unmark) w,
           Ok (if Qlt_bool (top el) (innerHeight w / 4)%Q then Some i else acc))
      end
  end.
Proof.
  unfold onScroll_each, bind, lift, getElementById, gets, targetOf, fragment,
    elementWithId.
  destruct (decodeURIComponent _) as [j|x]; [|reflexivity].
  destruct (find _ _) as [el|]; [|reflexivity].
  unfold classList_remove, modify, ret. simpl.
  destruct (Qlt_bool _ _); reflexivity.
Qed.

(** The loop over the node list is [scan] on the anchors not yet
    visited. *)
Lemma forEach_scan (rest done : list Anchor) (acc : option nat) (w : World) :
  anchors w = (done ++ rest)%list ->
  forEach (List.length done) rest onScroll_each acc w
  = (with_anchors (done ++ fst (scan w (List.length done) rest acc)) w,
     snd (scan w (List.length done) rest acc)).
Proof.
  revert done acc w; induction rest as [|a rest IH]; intros done acc w H.
  - simpl. unfold ret. rewrite <- H, with_anchors_same. reflexivity.
  - simpl forEach. unfold bind. rewrite onScroll_each_cases. simpl scan.
    destruct (decodeURIComponent _) as [j|x].
    + destruct (targetOf w a) as [el|].
      * set (acc' := if Qlt_bool _ _ then _ else _).
        specialize (IH (done ++ [unmark a])%list acc'
                       (set_anchors (update (List.length done) unmark) w)).
        rewrite List.length_app, Nat.add_1_r in IH. rewrite IH.
        -- rewrite scan_set_anchors.
           destruct (scan w (S (List.length done)) rest acc') as [r o]. simpl.
           rewrite <- app_assoc. reflexivity.
        -- simpl. rewrite H, update_app, <- app_assoc. reflexivity.
      * specialize (IH (done ++ [a])%list acc w).
        rewrite List.length_app, Nat.add_1_r in IH. rewrite IH.
        -- destruct (scan w (S (List.length done)) rest acc) as [r o]. simpl.
           rewrite <- app_assoc. reflexivity.
        -- rewrite H, <- app_assoc. reflexivity.
    + simpl. rewrite <- H, with_anchors_same. reflexivity.
Qed.

Lemma onScroll_loop_scan (w : World) :
  onScroll_loop w
  = (with_anchors (fst (scan w 0 (anchors w) None)) w,
     snd (scan w 0 (anchors w) None)).
Proof.
  unfold onScroll_loop, bind, querySelectorAll, gets.
  exact (forEach_scan (anchors w) [] None w eq_refl).
Qed.

(** The handler: the loop, then the marker on [activeAnchor]. *)
Lemma onScroll_body_scan (w : World) :
  onScroll_body w =
  if tocEl w then
    match scan w 0 (anchors w) None with
    | (l, Ok (Some i)) => (with_anchors (update i mark l) w, Ok tt)
    | (l, Ok None) => (with_anchors l w, Ok tt)
    | (l, Throw x) => (with_anchors l w, Throw x)
    end
  else (w, Ok tt).
Proof.
  unfold onScroll_body, bind, gets. destruct (tocEl w); [|reflexivity]. simpl.
  rewrite onScroll_loop_scan.
  destruct (scan w 0 (anchors w) None) as [l [[i|]|x]]; reflexivity.
Qed.

(** *** What the loop leaves behind *)

Lemma not_qualifies_unresolved (w : World) (a : Anchor) :
  targetOf w a = None -> ~ Qualifies w a.
Proof. intros H (el & T & _). congruence. Qed.

Lemma qualifies_resolves (w : World) (a : Anchor) :
  Qualifies w a -> resolves w a = true.
Proof. intros (el & T & _). unfold resolves. now rewrite T. Qed.

Lemma wellFormed_decodes (a : Anchor) :
  wellFormed a = true -> exists i, decodeURIComponent (fragment (href a)) = Ok i.
Proof.
  unfold wellFormed. destruct (decodeURIComponent _) as [i|x]; [eauto|discriminate].
Qed.

(** A pass over anchors that all decode visits every one of them: it
    takes the marker off those whose target resolves and ends with the
    position of the last one that qualifies, if any. *)
Lemma scan_complete (w : World) (l : list Anchor) (i : nat) (acc : option nat) :
  forallb wellFormed l = true ->
  exists o,
    scan w i l acc = (map (cleared w) l, Ok o) /\
    ((o = acc /\ forall a, In a l -> ~ Qualifies w a) \/
     (exists k a, o = Some (i + k) /\ nth_error l k = Some a /\ Qualifies w a /\
                  forall j b, k < j -> nth_error l j = Some b -> ~ Qualifies w b)).
Proof.
  revert i acc; induction l as [|a l IH]; intros i acc H; simpl in *.
  - exists acc. split; [reflexivity|]. left. split; [reflexivity|]. intros _ [].
  - apply andb_true_iff in H as [Ha Hl].
    destruct (wellFormed_decodes _ Ha) as [d Hd]. rewrite Hd.
    unfold cleared at 1, resolves.
    destruct (targetOf w a) as [el|] eqn:T.
    + set (acc' := if Qlt_bool _ _ then _ else _).
      destruct (IH (S i) acc' Hl) as (o & E & C). rewrite E.
      exists o. split; [reflexivity|].
      destruct C as [[Eo Hn] | (k & b & Eo & Hk & Hq & Hlast)].
      * subst acc'. destruct (Qlt_bool _ _) eqn:Lt.
        -- right. exists 0, a. rewrite Nat.add_0_r.
           split; [exact Eo|]. split; [reflexivity|].
           split; [exists el; split; [exact T | now apply Qlt_bool_iff]|].
           intros [|j] b Hj Hb; [exfalso; lia|]. simpl in Hb.
           apply Hn. eapply nth_error_In; eauto.
        -- left. split; [exact Eo|]. intros b [<-|Hb]; [|now apply Hn].
           intros (el' & T' & Lt'). rewrite T in T'. injection T' as <-.
           apply Qlt_bool_iff in Lt'. congruence.
      * right. exists (S k), b. rewrite Nat.add_succ_r.
        split; [exact Eo|]. split; [exact Hk|]. split; [exact Hq|].
        intros [|j] c Hj Hc; [exfalso; lia|]. simpl in Hc. apply (Hlast j c); [lia | exact Hc].
    + destruct (IH (S i) acc Hl) as (o & E & C). rewrite E.
      exists o. split; [reflexivity|].
      destruct C as [[Eo Hn] | (k & b & Eo & Hk & Hq & Hlast)].
      * left. split; [exact Eo|]. intros b [<-|Hb]; [|now apply Hn].
        now apply not_qualifies_unresolved.
      * right. exists (S k), b. rewrite Nat.add_succ_r.
        split; [exact Eo|]. split; [exact Hk|]. split; [exact Hq|].
        intros [|j] c Hj Hc; [exfalso; lia|]. simpl in Hc. apply (Hlast j c); [lia | exact Hc].
Qed.

(** A pass stops at the first anchor whose fragment is malformed: the
    anchors before it are visited, that anchor and all after it are
    left as they were, and the exception leaves the loop. *)
Lemma scan_throws (w : World) (l : list Anchor) (i : nat) (acc : option nat) :
  forallb wellFormed l = false ->
  exists pre bad post,
    l = (pre ++ bad :: post)%list /\ forallb wellFormed pre = true /\
    wellFormed bad = false /\
    scan w i l acc = ((map (cleared w) pre ++ bad :: post)%list, Throw URIError).
Proof.
  revert i acc; induction l as [|a l IH]; intros i acc H; simpl in *.
  - discriminate.
  - destruct (wellFormed a) eqn:Ha.
    + simpl in H. destruct (wellFormed_decodes _ Ha) as [d Hd]. rewrite Hd.
      destruct (targetOf w a) as [el|] eqn:T.
      * destruct (IH (S i) (if Qlt_bool (top el) (innerHeight w / 4)%Q
                            then Some i else acc) H)
          as (pre & bad & post & -> & Hp & Hb & E).
        rewrite E. exists (a :: pre), bad, post. simpl.
        rewrite Ha, Hp. unfold cleared at 2, resolves. rewrite T. auto.
      * destruct (IH (S i) acc H) as (pre & bad & post & -> & Hp & Hb & E).
        rewrite E. exists (a :: pre), bad, post. simpl.
        rewrite Ha, Hp. unfold cleared at 2, resolves. rewrite T. auto.
    + exists [], a, l. pose proof Ha as Ha'. unfold wellFormed in Ha'.
      destruct (decodeURIComponent _) as [d|x] eqn:D; [discriminate|].
      rewrite (decodeURIComponent_throws _ _ D). auto.
Qed.

Lemma scan_ok_wellFormed (w : World) (l : list Anchor) (i : nat)
      (acc o : option nat) :
  snd (scan w i l acc) = Ok o -> forallb wellFormed l = true.
Proof.
  intro H. destruct (forallb wellFormed l) eqn:E; [reflexivity|].
  destruct (scan_throws w l i acc E) as (pre & bad & post & _ & _ & _ & S).
  rewrite S in H. discriminate.
Qed.

(** *** Markers *)

Lemma nth_error_update {A : Type} (f : A -> A) (k : nat) (l : list A) (i : nat) :
  nth_error (update k f l) i
  = if Nat.eqb i k then option_map f (nth_error l i) else nth_error l i.
Proof.
  revert k i; induction l as [|x l IH]; intros k i; simpl.
  - destruct k, i; simpl; try reflexivity. now destruct (Nat.eqb i k).
  - destruct k, i; simpl; try reflexivity. apply IH.
Qed.

Lemma contains_add (t : string) (l : list string) : contains t (add t l) = true.
Proof.
  unfold add. destruct (contains t l) eqn:E; [exact E|].
  unfold contains. rewrite existsb_app. simpl.
  now rewrite String.eqb_refl, orb_true_r.
Qed.

Lemma contains_remove (t : string) (l : list string) :
  contains t (remove t l) = false.
Proof.
  unfold contains, remove. induction l as [|x l IH]; simpl; [reflexivity|].
  destruct (String.eqb x t) eqn:E; simpl; [exact IH|].
  rewrite String.eqb_sym, E. exact IH.
Qed.

Lemma active_mark (a : Anchor) : active (mark a) = true.
Proof. apply contains_add. Qed.

Lemma active_unmark (a : Anchor) : active (unmark a) = false.
Proof. apply contains_remove. Qed.

Lemma active_cleared (w : World) (a : Anchor) :
  active (cleared w a) = negb (resolves w a) && active a.
Proof.
  unfold cleared. destruct (resolves w a); [apply active_unmark | reflexivity].
Qed.

Lemma href_cleared (w : World) (a : Anchor) : href (cleared w a) = href a.
Proof. unfold cleared. now destruct (resolves w a). Qed.

(** At most one position holds the last qualifying anchor. *)
Lemma LastQualifying_unique (w : World) (i j : nat) :
  LastQualifying w i -> LastQualifying w j -> i = j.
Proof.
  intros [(a & Ha & Qa) La] [(b & Hb & Qb) Lb].
  destruct (Nat.lt_trichotomy i j) as [L|[E|L]]; [|exact E|].
  - destruct (La j b L Hb Qb).
  - destruct (Lb i a L Ha Qa).
Qed.

(** The loop on the anchors of the page, when every fragment decodes. *)
Lemma scan_anchors (w : World) :
  forallb wellFormed (anchors w) = true ->
  exists o,
    scan w 0 (anchors w) None = (map (cleared w) (anchors w), Ok o) /\
    (forall i, o = Some i <-> LastQualifying w i) /\
    (o = None <-> forall a, In a (anchors w) -> ~ Qualifies w a).
Proof.
  intro H. destruct (scan_complete w (anchors w) 0 None H) as (o & E & C).
  exists o. split; [exact E|].
  destruct C as [[-> Hn] | (k & a & -> & Hk & Hq & Hlast)].
  - split; [|tauto].
    intro i. split; [discriminate|].
    intros [(a & Ha & Qa) _]. destruct (Hn a (nth_error_In _ _ Ha) Qa).
  - simpl. assert (L : LastQualifying w k) by (split; eauto).
    split.
    + intro i. split.
      * now intros [= <-].
      * intro Li. f_equal. eapply LastQualifying_unique; eauto.
    + split; [discriminate|].
      intro Hn. destruct (Hn a (nth_error_In _ _ Hk) Hq).
Qed.

(** C1, as stated, fails: on this page the third link is the last
    one whose heading has passed the top quarter, yet the handler
    marks no anchor: it leaves with the URIError raised at the second
    link, whose fragment is not a percent-encoding. *)
Lemma onScroll_marks_counterexample :
  tocEl Sample.malformedPage = true /\
  LastQualifying Sample.malformedPage 2 /\
  map active (anchors (fst (onScroll_body Sample.malformedPage)))
  = [false; false; false] /\
  snd (onScroll_body Sample.malformedPage) = Throw URIError.
Proof.
  split; [reflexivity|]. split; [|split; reflexivity].
  split.
  - eexists. split; [reflexivity|].
    exists (mkElement "usage" 50). split; reflexivity.
  - intros [|[|[|j]]] b Hj Hb; try (exfalso; lia).
    simpl in Hb. destruct j; discriminate Hb.
Qed.

(** C1, amended.  On an invocation of the scroll handler with the
    table of contents mounted and every anchor's fragment a
    well-formed percent-encoding, the handler returns normally; the
    anchor it marks is the last anchor in document order whose target
    heading's top offset is below a quarter of the viewport height,
    anchors whose target resolves to no element being skipped, and it
    marks none when no anchor qualifies; afterwards an anchor bears the
    marker exactly when it is that anchor, or when its target does not
    resolve and it bore the marker before. *)
Theorem onScroll_marks_last_qualifying (w : World) :
  tocEl w = true ->
  forallb wellFormed (anchors w) = true ->
  snd (onScroll_body w) = Ok tt /\
  (forall i, snd (onScroll_loop w) = Ok (Some i) <-> LastQualifying w i) /\
  (snd (onScroll_loop w) = Ok None <->
   forall a, In a (anchors w) -> ~ Qualifies w a) /\
  (forall i a, nth_error (anchors w) i = Some a ->
     exists a',
       nth_error (anchors (fst (onScroll_body w))) i = Some a' /\
       href a' = href a /\
       (active a' = true <->
        LastQualifying w i \/ (resolves w a = false /\ active a = true))).
Proof.
  intros Hm Hw. destruct (scan_anchors w Hw) as (o & E & Ho & Hnone).
  rewrite onScroll_body_scan, onScroll_loop_scan, Hm, E. simpl.
  assert (Hok : snd (let (l, r) := (map (cleared w) (anchors w), @Ok (option nat) o) in
                     match r with
                     | Ok (Some i) => (with_anchors (update i mark l) w, Ok tt)
                     | Ok None => (with_anchors l w, Ok tt)
                     | Throw x => (with_anchors l w, Throw x)
                     end) = Ok tt) by (destruct o; reflexivity).
  split; [destruct o; reflexivity|].
  split; [intro i; rewrite <- Ho; split; congruence|].
  split; [rewrite <- Hnone; split; congruence|].
  intros i a Ha.
  destruct o as [k|]; simpl.
  - rewrite nth_error_update, nth_error_map, Ha. simpl.
    destruct (Nat.eqb_spec i k) as [->|Ne].
    + exists (mark (cleared w a)). split; [reflexivity|].
      split; [simpl; apply href_cleared|].
      rewrite active_mark. split; [|reflexivity].
      intros _. left. now apply Ho.
    + exists (cleared w a). split; [reflexivity|]. split; [apply href_cleared|].
      rewrite active_cleared, andb_true_iff, negb_true_iff. split.
      * intros [R A]. right. split; assumption.
      * intros [L | [R A]]; [|split; assumption].
        apply Ho in L. congruence.
  - rewrite nth_error_map, Ha. simpl.
    exists (cleared w a). split; [reflexivity|]. split; [apply href_cleared|].
    rewrite active_cleared, andb_true_iff, negb_true_iff. split.
    * intros [R A]. right. split; assumption.
    * intros [L | [R A]]; [|split; assumption].
      apply Ho in L. discriminate.
Qed.

Lemma onScroll_marks_last_qualifying_witness :
  tocEl Sample.page = true /\
  forallb wellFormed (anchors Sample.page) = true /\
  (innerHeight Sample.page / 4 == 150)%Q /\
  map top (document Sample.page) = [500; 50; -10; 300]%Q /\
  LastQualifying Sample.page 2 /\
  map active (anchors (fst (onScroll_body Sample.page)))
  = [false; false; true; false].
Proof.
  split; [reflexivity|]. split; [reflexivity|]. split; [reflexivity|].
  split; [reflexivity|].
  destruct (onScroll_marks_last_qualifying Sample.page eq_refl eq_refl)
    as (_ & H & _).
  split; [apply H; reflexivity | reflexivity].
Defined.

(** *** At most one marker *)

Lemma activeCount_update_le (f : Anchor -> Anchor) (k : nat) (l : list Anchor) :
  activeCount (update k f l) <= S (activeCount l).
Proof.
  unfold activeCount. revert k; induction l as [|a l IH]; intro k.
  - destruct k; simpl; lia.
  - destruct k; simpl.
    + destruct (active (f a)), (active a); simpl; lia.
    + specialize (IH k). destruct (active a); simpl; lia.
Qed.

Lemma forallb_update {A : Type} (P : A -> bool) (f : A -> A) (k : nat) (l : list A) :
  forallb P l = true ->
  (forall a, nth_error l k = Some a -> P (f a) = true) ->
  forallb P (update k f l) = true.
Proof.
  revert k; induction l as [|a l IH]; intros k H Hk.
  - now destruct k.
  - simpl in H. apply andb_true_iff in H as [Ha Hl].
    destruct k; simpl.
    + rewrite (Hk a eq_refl). exact Hl.
    + rewrite Ha. apply IH; [exact Hl|]. intros b Hb. now apply Hk.
Qed.

Lemma resolves_href (w : World) (a b : Anchor) :
  href a = href b -> resolves w a = resolves w b.
Proof. intro H. unfold resolves, targetOf. now rewrite H. Qed.

(** Anchors without a stale marker have no marker left after a
    complete pass. *)
Lemma cleared_no_marker (w : World) (l : list Anchor) :
  forallb (fun a => implb (active a) (resolves w a)) l = true ->
  forallb (fun a => negb (active a)) (map (cleared w) l) = true.
Proof.
  induction l as [|a l IH]; simpl; [reflexivity|].
  intro H. apply andb_true_iff in H as [Ha Hl].
  rewrite (IH Hl), active_cleared.
  destruct (active a), (resolves w a); simpl in *; congruence.
Qed.

Lemma no_marker_count (l : list Anchor) :
  forallb (fun a => negb (active a)) l = true -> activeCount l = 0.
Proof.
  unfold activeCount. induction l as [|a l IH]; simpl; [reflexivity|].
  intro H. apply andb_true_iff in H as [Ha Hl].
  apply negb_true_iff in Ha. rewrite Ha. now apply IH.
Qed.

Lemma no_marker_noStale (w : World) (l : list Anchor) :
  forallb (fun a => negb (active a)) l = true ->
  forallb (fun a => implb (active a) (resolves w a)) l = true.
Proof.
  induction l as [|a l IH]; simpl; [reflexivity|].
  intro H. apply andb_true_iff in H as [Ha Hl].
  apply negb_true_iff in Ha. rewrite Ha. now apply IH.
Qed.

(** Whatever its outcome, a pass only takes markers off. *)
Lemma scan_takes_off (w : World) (l : list Anchor) (i : nat) (acc : option nat) :
  activeCount (fst (scan w i l acc)) <= activeCount l /\
  (forallb (fun a => implb (active a) (resolves w a)) l = true ->
   forallb (fun a => implb (active a) (resolves w a)) (fst (scan w i l acc)) = true).
Proof.
  unfold activeCount.
  revert i acc; induction l as [|a l IH]; intros i acc; simpl.
  - split; [lia | reflexivity].
  - destruct (decodeURIComponent _) as [d|x]; [|split; [simpl; lia | auto]].
    destruct (targetOf w a) as [el|].
    + specialize (IH (S i) (if Qlt_bool (top el) (innerHeight w / 4)%Q
                            then Some i else acc)).
      destruct (scan w (S i) l _) as [r o]. simpl in *.
      rewrite active_unmark. simpl. destruct IH as [IH1 IH2]. split.
      * destruct (active a); simpl; lia.
      * intro H. apply andb_true_iff in H as [_ H]. now apply IH2.
    + specialize (IH (S i) acc).
      destruct (scan w (S i) l acc) as [r o]. simpl in *.
      destruct IH as [IH1 IH2]. split.
      * destruct (active a); simpl; lia.
      * intro H. apply andb_true_iff in H as [Ha H]. now rewrite Ha, IH2.
Qed.

(** C2, as stated, fails: the first link bears the marker and its
    target resolves to no element, so the handler skips it before the
    clearing; the second link is marked, and two anchors bear the
    marker afterwards. *)
Lemma onScroll_single_marker_counterexample :
  tocEl Sample.stalePage = true /\
  activeCount (anchors Sample.stalePage) = 1 /\
  snd (onScroll_body Sample.stalePage) = Ok tt /\
  map active (anchors (fst (onScroll_body Sample.stalePage))) = [true; true] /\
  activeCount (anchors (fst (onScroll_body Sample.stalePage))) = 2.
Proof. repeat split. Qed.

(** From a page without stale marker the handler gives a page without
    stale marker, and never more markers than one when there was at
    most one, or when it runs to completion. *)
Lemma onScroll_body_no_stale (w : World) :
  noStaleMarker w = true ->
  noStaleMarker (fst (onScroll_body w)) = true /\
  (activeCount (anchors w) <= 1 ->
   activeCount (anchors (fst (onScroll_body w))) <= 1) /\
  (tocEl w = true -> snd (onScroll_body w) = Ok tt ->
   activeCount (anchors (fst (onScroll_body w))) <= 1).
Proof.
  unfold noStaleMarker. intro H. rewrite onScroll_body_scan.
  destruct (tocEl w); [|repeat split; [exact H | tauto | discriminate]].
  destruct (scan_takes_off w (anchors w) 0 None) as [Hc Hs].
  specialize (Hs H).
  destruct (scan w 0 (anchors w) None) as [l [o|x]] eqn:E; simpl in Hc, Hs.
  - pose proof (scan_ok_wellFormed w (anchors w) 0 None o) as Hw.
    rewrite E in Hw. specialize (Hw eq_refl).
    destruct (scan_anchors w Hw) as (o' & E' & Ho & _).
    rewrite E in E'. injection E' as -> <-.
    pose proof (cleared_no_marker w _ H) as Hz.
    destruct o as [k|]; simpl.
    + assert (Hk : activeCount (update k mark (map (cleared w) (anchors w))) <= 1).
      { pose proof (activeCount_update_le mark k (map (cleared w) (anchors w))).
        rewrite (no_marker_count _ Hz) in *. assumption. }
      split; [|tauto].
      apply forallb_update; [now apply no_marker_noStale|].
      intros a Ha. rewrite active_mark. simpl.
      destruct (proj1 (Ho k) eq_refl) as [(b & Hb & Qb) _].
      rewrite nth_error_map, Hb in Ha. injection Ha as <-.
      change (resolves w (mark (cleared w b)) = true).
      rewrite (resolves_href w (mark (cleared w b)) b)
        by (simpl; apply href_cleared).
      now apply qualifies_resolves.
    + split; [exact Hs|]. rewrite (no_marker_count _ Hz). split; intros; lia.
  - simpl. split; [exact Hs|]. split; [intros; lia | discriminate].
Qed.

Lemma scan_unresolved (w : World) (l : list Anchor) (i : nat)
      (acc : option nat) (j : nat) (a : Anchor) :
  nth_error l j = Some a -> resolves w a = false ->
  nth_error (fst (scan w i l acc)) j = Some a.
Proof.
  revert i acc j; induction l as [|b l IH]; intros i acc j Hj Hr.
  - destruct j; discriminate Hj.
  - simpl. destruct (decodeURIComponent _) as [d|x]; [|exact Hj].
    destruct (targetOf w b) as [el|] eqn:T.
    + specialize (IH (S i) (if Qlt_bool (top el) (innerHeight w / 4)%Q
                            then Some i else acc)).
      destruct (scan w (S i) l _) as [r o]. simpl in *.
      destruct j; simpl in *.
      * injection Hj as <-. unfold resolves in Hr. rewrite T in Hr. discriminate.
      * now apply IH.
    + specialize (IH (S i) acc).
      destruct (scan w (S i) l acc) as [r o]. simpl in *.
      destruct j; simpl in *; [exact Hj | now apply IH].
Qed.

Lemma resolved_cleared_no_marker (w : World) (l : list Anchor) :
  activeCount (filter (resolves w) (map (cleared w) l)) = 0.
Proof.
  unfold activeCount. induction l as [|a l IH]; simpl; [reflexivity|].
  rewrite (resolves_href w (cleared w a) a (href_cleared w a)).
  destruct (resolves w a) eqn:R; [|exact IH]. simpl.
  rewrite active_cleared, R. simpl. exact IH.
Qed.

Lemma activeCount_filter_update_le (P : Anchor -> bool) (f : Anchor -> Anchor)
      (k : nat) (l : list Anchor) :
  (forall a, P (f a) = P a) ->
  activeCount (filter P (update k f l)) <= S (activeCount (filter P l)).
Proof.
  intro Hf. unfold activeCount. revert k; induction l as [|a l IH]; intro k.
  - destruct k; simpl; lia.
  - destruct k; simpl.
    + rewrite Hf. destruct (P a); simpl; [|lia].
      destruct (active (f a)), (active a); simpl; lia.
    + specialize (IH k). destruct (P a); simpl; [|exact IH].
      destruct (active a); simpl; lia.
Qed.

Lemma activeCount_cleared (w : World) (l : list Anchor) :
  activeCount (map (cleared w) l)
  = activeCount (filter (fun a => negb (resolves w a)) l).
Proof.
  unfold activeCount. induction l as [|a l IH]; simpl; [reflexivity|].
  rewrite active_cleared. destruct (resolves w a); simpl; [exact IH|].
  destruct (active a); simpl; now rewrite IH.
Qed.

(** C2, amended.  The scroll handler never touches an anchor whose
    target id resolves to no element: such an anchor is skipped before
    the clearing and keeps the marker if it had it.  After an
    invocation that runs to completion on the mounted table of
    contents, at most one anchor with a resolving target bears the
    marker, and the anchors that bear it are at most one more than
    the anchors with an unresolvable target that bore it before.  An
    invocation that ends early (the reference not set, or an
    exception) adds no marker.  So a page on which no anchor with an
    unresolvable target bears the marker stays so, and keeps at most
    one marker once it has at most one. *)
Theorem onScroll_keeps_single_marker (w : World) :
  (forall i a, nth_error (anchors w) i = Some a -> resolves w a = false ->
               nth_error (anchors (fst (onScroll_body w))) i = Some a) /\
  (tocEl w = true -> snd (onScroll_body w) = Ok tt ->
   activeCount (filter (resolves w) (anchors (fst (onScroll_body w)))) <= 1 /\
   activeCount (anchors (fst (onScroll_body w))) <= 1 + staleCount w) /\
  (tocEl w = false \/ snd (onScroll_body w) <> Ok tt ->
   activeCount (anchors (fst (onScroll_body w))) <= activeCount (anchors w)) /\
  (noStaleMarker w = true ->
   noStaleMarker (fst (onScroll_body w)) = true /\
   (activeCount (anchors w) <= 1 ->
    activeCount (anchors (fst (onScroll_body w))) <= 1)).
Proof.
  split; [|split; [|split]].
  - intros j a Hj Hr. rewrite onScroll_body_scan.
    destruct (tocEl w); [|exact Hj].
    pose proof (scan_unresolved w (anchors w) 0 None j a Hj Hr) as Hu.
    destruct (scan w 0 (anchors w) None) as [l [[k|]|x]] eqn:E;
      simpl in Hu |- *; try exact Hu.
    rewrite nth_error_update, Hu.
    destruct (Nat.eqb_spec j k) as [->|Ne]; [|reflexivity].
    exfalso.
    pose proof (scan_ok_wellFormed w (anchors w) 0 None (Some k)) as Hw.
    rewrite E in Hw. specialize (Hw eq_refl).
    destruct (scan_anchors w Hw) as (o & E' & Ho & _).
    rewrite E in E'. injection E' as _ <-.
    destruct (proj1 (Ho k) eq_refl) as [(b & Hb & Qb) _].
    rewrite Hj in Hb. injection Hb as <-.
    apply qualifies_resolves in Qb. congruence.
  - intros Hm Hok. rewrite onScroll_body_scan, Hm in Hok |- *.
    destruct (scan w 0 (anchors w) None) as [l r] eqn:E.
    destruct r as [o|x]; [|simpl in Hok; discriminate].
    pose proof (scan_ok_wellFormed w (anchors w) 0 None o) as Hw.
    rewrite E in Hw. specialize (Hw eq_refl).
    destruct (scan_complete w (anchors w) 0 None Hw) as (o' & E' & _).
    rewrite E in E'. injection E' as -> <-.
    unfold staleCount. rewrite <- activeCount_cleared.
    destruct o as [k|]; simpl.
    + split.
      * pose proof (activeCount_filter_update_le (resolves w) mark k
                      (map (cleared w) (anchors w))
                      (fun a => resolves_href w (mark a) a eq_refl)) as H.
        now rewrite resolved_cleared_no_marker in H.
      * apply activeCount_update_le.
    + split; [rewrite resolved_cleared_no_marker; lia | lia].
  - intro H. rewrite onScroll_body_scan in H |- *.
    destruct (tocEl w); [|simpl; lia].
    pose proof (scan_takes_off w (anchors w) 0 None) as [Hc _].
    destruct (scan w 0 (anchors w) None) as [l [[k|]|x]]; simpl in *;
      try exact Hc.
    destruct H as [H|H]; [discriminate | now destruct H].
  - intro Hs. destruct (onScroll_body_no_stale w Hs) as (H1 & H2 & _).
    split; assumption.
Qed.

Lemma onScroll_keeps_single_marker_witness :
  nth_error (anchors Sample.stalePage) 0
  = Some (mkAnchor "https://goproxy.io/docs/intro.html#gone" ["active"] []) /\
  nth_error (anchors (fst (onScroll_body Sample.stalePage))) 0
  = Some (mkAnchor "https://goproxy.io/docs/intro.html#gone" ["active"] []) /\
  staleCount Sample.stalePage = 1 /\
  activeCount (filter (resolves Sample.stalePage)
                      (anchors (fst (onScroll_body Sample.stalePage)))) <= 1 /\
  activeCount (anchors (fst (onScroll_body Sample.stalePage))) <= 1 + 1 /\
  noStaleMarker (fst (onScroll_body Sample.page)) = true.
Proof.
  destruct (onScroll_keeps_single_marker Sample.stalePage) as (H1 & H2 & _).
  destruct (onScroll_keeps_single_marker Sample.page) as (_ & _ & _ & H4).
  split; [reflexivity|].
  split; [apply H1; reflexivity|].
  split; [reflexivity|].
  destruct (H2 eq_refl eq_refl) as [H5 H6].
  split; [exact H5|]. split; [exact H6|].
  apply H4. reflexivity.
Defined.

(** *** Exceptions *)

(** What leaves the click listener on a click on the link itself. *)
Lemma onClick_outcome (location : Location) (a : Anchor) (w : World) :
  snd (onClick location (mkEvent (Link a)) w)
  = if wellFormed a
    then if refused w location a then Throw SecurityError else Ok tt
    else Throw URIError.
Proof.
  rewrite onClick_cases. unfold wellFormed, refused, targetOf. simpl hrefOf.
  cbv iota.
  destruct (decodeURIComponent _) as [d|x] eqn:D.
  - destruct (elementWithId w d); [|reflexivity]. cbv zeta.
    now destruct (canRewriteURL w _).
  - simpl. now rewrite (decodeURIComponent_throws _ _ D).
Qed.

Lemma onScroll_body_outcome (w : World) :
  snd (onScroll_body w)
  = if tocEl w && negb (forallb wellFormed (anchors w))
    then Throw URIError else Ok tt.
Proof.
  rewrite onScroll_body_scan. destruct (tocEl w); [|reflexivity]. simpl.
  destruct (forallb wellFormed (anchors w)) eqn:E; simpl.
  - destruct (scan_anchors w E) as (o & -> & _). now destruct o.
  - destruct (scan_throws w _ 0 None E) as (pre & bad & post & _ & _ & _ & ->).
    reflexivity.
Qed.

(** *** Registered listeners are left alone by the handlers *)

Lemma map_update_same {A B : Type} (g : A -> B) (f : A -> A) (k : nat) (l : list A) :
  (forall a, g (f a) = g a) -> map g (update k f l) = map g l.
Proof.
  intro H. revert k; induction l as [|a l IH]; intro k.
  - now destruct k.
  - destruct k; simpl; [now rewrite H | now rewrite IH].
Qed.

Lemma scan_listeners (w : World) (l : list Anchor) (i : nat) (acc : option nat) :
  map listeners (fst (scan w i l acc)) = map listeners l.
Proof.
  revert i acc; induction l as [|a l IH]; intros i acc; simpl; [reflexivity|].
  destruct (decodeURIComponent _) as [d|x]; [|reflexivity].
  destruct (targetOf w a) as [el|].
  - specialize (IH (S i) (if Qlt_bool (top el) (innerHeight w / 4)%Q
                          then Some i else acc)).
    destruct (scan w (S i) l _) as [r o]. simpl in *. now rewrite IH.
  - specialize (IH (S i) acc).
    destruct (scan w (S i) l acc) as [r o]. simpl in *. now rewrite IH.
Qed.

Lemma onClick_registrations (location : Location) (e : Event) (w : World) :
  registrations (fst (onClick location e w)) = registrations w.
Proof.
  rewrite onClick_cases.
  destruct (hrefOf (target e)) as [h|]; [|reflexivity].
  destruct (decodeURIComponent _) as [d|x]; [|reflexivity].
  destruct (elementWithId w d); [|reflexivity]. cbv zeta.
  now destruct (canRewriteURL w _).
Qed.

Lemma onScroll_body_registrations (w : World) :
  registrations (fst (onScroll_body w)) = registrations w.
Proof.
  rewrite onScroll_body_scan. destruct (tocEl w); [|reflexivity].
  pose proof (scan_listeners w (anchors w) 0 None) as H.
  destruct (scan w 0 (anchors w) None) as [l [[k|]|x]]; simpl in H;
    unfold registrations; simpl; try now rewrite H.
  now rewrite map_update_same, H.
Qed.

Lemma onScroll_registrations (run : nat) (w : World) :
  registrations (fst (onScroll run w)) = registrations w.
Proof.
  unfold onScroll, throttled. destruct (lookupTimer run (timers w)).
  - reflexivity.
  - now rewrite onScroll_body_registrations.
Qed.

Lemma run_listener_registrations (m : M unit) (w : World) :
  registrations (fst (m w)) = registrations w ->
  registrations (run_listener m w) = registrations w.
Proof. unfold run_listener. now destruct (m w) as [w' [u|x]]. Qed.

(** A dispatch, whether a listener throws or not, leaves every
    listener registered. *)
Lemma dispatch_registrations (fs : list Listener) (e : Event) (w : World) :
  registrations (dispatch fs e w) = registrations w.
Proof.
  unfold dispatch. revert w; induction fs as [|f fs IH]; intro w; simpl.
  - reflexivity.
  - rewrite IH. apply run_listener_registrations.
    destruct f; [apply onClick_registrations | apply onScroll_registrations].
Qed.

(** C5, as stated, fails: the fragment [100%] is not a
    percent-encoding; a click on that link leaves the listener with a
    URIError, and so does the scroll handler, which never gets to the
    link after it although its heading has passed the top quarter.
    On a page whose pathname starts with [//] a click on a link to an
    existing heading leaves the listener with the SecurityError of
    [replaceState]. *)
Lemma listeners_isolation_counterexample :
  snd (onClick Sample.location Sample.malformedClick Sample.malformedPage)
  = Throw URIError /\
  snd (onScroll_body Sample.malformedPage) = Throw URIError /\
  (exists a, nth_error (anchors Sample.malformedPage) 2 = Some a /\
             Qualifies Sample.malformedPage a) /\
  map active (anchors (fst (onScroll_body Sample.malformedPage)))
  = [false; false; false] /\
  calls (dispatchClick 1 None
           (fst (effect 0 Sample.location Sample.malformedPage)))
  = [PreventDefault; Uncaught URIError] /\
  calls (dispatchClick 0 None
           (fst (effect 0 Sample.doubleSlash Sample.brokenPage)))
  = [PreventDefault; Uncaught SecurityError].
Proof.
  split; [reflexivity|]. split; [reflexivity|].
  split; [|repeat split; reflexivity].
  eexists. split; [reflexivity|].
  exists (mkElement "usage" 50). split; reflexivity.
Qed.

(** C5, amended.  On a click whose target is the link itself, an
    exception leaves the click listener in two cases and no other: the
    URIError of [decodeURIComponent] when the fragment of the link is a
    malformed percent-encoding, and the SecurityError of [replaceState]
    when the fragment resolves to an element and the browser refuses
    the URL [pathname + search + '#' + fragment].  An exception leaves
    the scroll handler exactly when the table of contents is mounted
    and the fragment of some anchor is malformed; it is the URIError.
    The anchors are not isolated from one another: the scroll handler
    stops at the first malformed anchor, leaving it and every anchor
    after it as they were, and adds no marker.  Later events are still
    handled: a dispatch, of a click on a link or on an element inside
    it or of a scroll, throwing or not, leaves every listener
    registered. *)
Theorem listeners_throw_on_malformed_fragment :
  (forall location a w,
     snd (onClick location (mkEvent (Link a)) w)
     = if wellFormed a
       then if refused w location a then Throw SecurityError else Ok tt
       else Throw URIError) /\
  (forall w,
     snd (onScroll_body w)
     = if tocEl w && negb (forallb wellFormed (anchors w))
       then Throw URIError else Ok tt) /\
  (forall w,
     tocEl w = true -> forallb wellFormed (anchors w) = false ->
     exists pre bad post,
       anchors w = (pre ++ bad :: post)%list /\
       forallb wellFormed pre = true /\ wellFormed bad = false /\
       anchors (fst (onScroll_body w))
       = (map (cleared w) pre ++ bad :: post)%list) /\
  (forall w, registrations (dispatchScroll w) = registrations w) /\
  (forall i inner w, registrations (dispatchClick i inner w) = registrations w).
Proof.
  split; [exact onClick_outcome|]. split; [exact onScroll_body_outcome|].
  split; [|split].
  - intros w Hm Hw. rewrite onScroll_body_scan, Hm.
    destruct (scan_throws w _ 0 None Hw) as (pre & bad & post & E & Hp & Hb & ->).
    exists pre, bad, post. auto.
  - intro w. apply dispatch_registrations.
  - intros i inner w. unfold dispatchClick.
    destruct (nth_error (anchors w) i); [apply dispatch_registrations | reflexivity].
Qed.

Lemma listeners_throw_on_malformed_fragment_witness :
  tocEl Sample.malformedPage = true /\
  forallb wellFormed (anchors Sample.malformedPage) = false /\
  snd (onClick Sample.location Sample.malformedClick Sample.malformedPage)
  = Throw URIError /\
  snd (onClick Sample.doubleSlash Sample.faqClick Sample.brokenPage)
  = Throw SecurityError /\
  snd (onClick Sample.location Sample.faqClick Sample.brokenPage) = Ok tt /\
  snd (onScroll_body Sample.malformedPage) = Throw URIError /\
  snd (onScroll_body Sample.page) = Ok tt /\
  exists pre bad post,
    anchors Sample.malformedPage = (pre ++ bad :: post)%list /\
    forallb wellFormed pre = true /\ wellFormed bad = false /\
    anchors (fst (onScroll_body Sample.malformedPage))
    = (map (cleared Sample.malformedPage) pre ++ bad :: post)%list.
Proof.
  destruct listeners_throw_on_malformed_fragment as (H1 & H2 & H3 & _).
  split; [reflexivity|]. split; [reflexivity|].
  split; [unfold Sample.malformedClick; rewrite H1; reflexivity|].
  split; [unfold Sample.faqClick; rewrite H1; reflexivity|].
  split; [unfold Sample.faqClick; rewrite H1; reflexivity|].
  split; [rewrite H2; reflexivity|]. split; [rewrite H2; reflexivity|].
  apply H3; reflexivity.
Defined.

End Scroll.

(* ------------------------------------------------------------------ *)
(** ** Attaching and detaching the listeners *)

Section Lifecycle.
Import JS Dom Doc Spec.
Local Open Scope nat_scope.

Lemma registered_removeListener (f : Listener) (l : list Listener) :
  registered f (removeListener f l) = false.
Proof.
  unfold registered, removeListener.
  induction l as [|g l IH]; simpl; [reflexivity|].
  destruct (Listener_eqb f g) eqn:E; simpl; [exact IH | now rewrite E].
Qed.

Lemma removeListener_all (f : Listener) (l : list Listener) :
  forallb (Listener_eqb f) l = true -> removeListener f l = [].
Proof.
  unfold removeListener. induction l as [|g l IH]; simpl; [reflexivity|].
  intro H. apply andb_true_iff in H as [-> Hl]. simpl. now apply IH.
Qed.

Lemma Listener_eqb_refl (f : Listener) : Listener_eqb f f = true.
Proof.
  destruct f as [r [p q]|r]; simpl; unfold Location_eqb; simpl;
    now rewrite Nat.eqb_refl, ?String.eqb_refl.
Qed.

Lemma registered_addListener (f : Listener) (l : list Listener) :
  registered f (addListener f l) = true.
Proof.
  unfold registered, addListener.
  destruct (existsb (Listener_eqb f) l) eqn:E; [exact E|].
  rewrite existsb_app. simpl. now rewrite Listener_eqb_refl, orb_true_r.
Qed.

(** A loop that applies [g] to the anchor at each position it visits:
    the positions [k], ..., [k + length xs - 1] of the node list. *)
Lemma forEach_update (g : Anchor -> Anchor) (op : nat -> M unit)
      (xs : list Anchor) (k : nat) (w : World) :
  (forall i v, op i v = (set_anchors (update i g) v, Ok tt)) ->
  exists l',
    forEach k xs (fun _ _ i => op i) tt w = (with_anchors l' w, Ok tt) /\
    forall j,
      nth_error l' j
      = option_map (fun a => if (k <=? j) && (j <? k + List.length xs)
                             then g a else a)
                   (nth_error (anchors w) j).
Proof.
  intro Hop. revert k w; induction xs as [|x xs IH]; intros k w.
  - exists (anchors w). split.
    + simpl. unfold ret. now rewrite with_anchors_same.
    + intro j. simpl. replace ((k <=? j) && (j <? k + 0)) with false.
      * now destruct (nth_error (anchors w) j).
      * destruct (Nat.leb_spec k j), (Nat.ltb_spec j (k + 0)); simpl; auto; lia.
  - simpl forEach. unfold bind. rewrite Hop.
    destruct (IH (S k) (set_anchors (update k g) w)) as (l' & E & Hl').
    exists l'. split; [rewrite E; reflexivity|].
    intro j. rewrite Hl'.
    change (anchors (set_anchors (update k g) w)) with (update k g (anchors w)).
    change (List.length (x :: xs)) with (S (List.length xs)).
    rewrite nth_error_update.
    destruct (Nat.eqb_spec j k) as [->|Ne];
      destruct (nth_error (anchors w) _) as [a|]; cbn [option_map];
      try reflexivity.
    + assert (C1 : (S k <=? k) && (k <? S k + List.length xs) = false)
        by (apply andb_false_iff; left; apply Nat.leb_gt; lia).
      assert (C2 : (k <=? k) && (k <? k + S (List.length xs)) = true)
        by (apply andb_true_iff;
            split; [apply Nat.leb_le | apply Nat.ltb_lt]; lia).
      rewrite C1, C2. reflexivity.
    + assert (C : (S k <=? j) && (j <? S k + List.length xs)
                  = (k <=? j) && (j <? k + S (List.length xs)))
        by (destruct (Nat.leb_spec k j), (Nat.leb_spec (S k) j),
              (Nat.ltb_spec j (k + S (List.length xs))),
              (Nat.ltb_spec j (S k + List.length xs)); cbn [andb]; auto; lia).
      rewrite C. reflexivity.
Qed.

(** The cleanup, step by step. *)
Lemma cleanup_cases (c : Cleanup) (w : World) :
  exists l',
    cleanup c w
    = (with_anchors l'
         (set_scrollListeners (removeListener (OnScroll (c_run c))) w), Ok tt) /\
    forall j,
      nth_error l' j
      = option_map (fun a => if j <? List.length (c_anchors c)
                             then unlisten (OnClick (c_run c) (c_location c)) a
                             else a)
                   (nth_error (anchors w) j).
Proof.
  unfold cleanup, bind, modify.
  destruct (forEach_update (unlisten (OnClick (c_run c) (c_location c)))
              (fun i => removeEventListener i (OnClick (c_run c) (c_location c)))
              (c_anchors c) 0
              (set_scrollListeners (removeListener (OnScroll (c_run c))) w))
    as (l' & E & Hl'); [reflexivity|].
  exists l'. split; [exact E|]. exact Hl'.
Qed.

Lemma fireTimer_unmounted (run : nat) (w : World) :
  tocEl w = false ->
  anchors (fireTimer run w) = anchors w /\ calls (fireTimer run w) = calls w.
Proof.
  intro H. unfold fireTimer, run_listener, timerExpired.
  destruct (lookupTimer run (timers w)) as [[|]|]; try (split; reflexivity).
  unfold onScroll_body, bind, gets. simpl. rewrite H. split; reflexivity.
Qed.

(** The effect registers the click listener on every anchor and the
    scroll listener on the window, and its cleanup closes over the
    node list it has queried. *)
Lemma effect_registers (run : nat) (location : Location) (w : World) :
  tocEl w = true ->
  registered (OnScroll run) (scrollListeners (fst (effect run location w))) = true /\
  (forall a, In a (anchors (fst (effect run location w))) ->
             registered (OnClick run location) (listeners a) = true) /\
  (forall c, snd (effect run location w) = Ok (Some c) ->
             c = mkCleanup run location (anchors w)) /\
  List.length (anchors (fst (effect run location w))) = List.length (anchors w).
Proof.
  intro Hm. unfold effect, bind, gets, querySelectorAll. rewrite Hm. simpl.
  destruct (forEach_update
              (fun a => mkAnchor (href a) (classList a)
                                 (addListener (OnClick run location) (listeners a)))
              (fun i => addEventListener i (OnClick run location))
              (anchors w) 0 w) as (l' & -> & Hl'); [reflexivity|].
  unfold modify.
  set (w1 := set_scrollListeners _ (with_anchors l' w)).
  pose proof (onScroll_registrations run w1) as R.
  unfold registrations in R. injection R as Rs Ra.
  assert (Hreg : forall ls, In ls (map listeners l') ->
                            registered (OnClick run location) ls = true).
  { intros ls Hin. apply in_map_iff in Hin as (b & <- & Hb).
    apply In_nth_error in Hb as [j Hj]. rewrite Hl' in Hj.
    destruct (nth_error (anchors w) j) as [a|] eqn:Ha; [|discriminate].
    simpl in Hj. assert (j < List.length (anchors w))
      by (apply nth_error_Some; congruence).
    rewrite (proj2 (Nat.ltb_lt _ _) H) in Hj. injection Hj as <-.
    apply registered_addListener. }
  assert (Hlen : List.length l' = List.length (anchors w)).
  { destruct (Nat.lt_trichotomy (List.length l') (List.length (anchors w)))
      as [L|[L|L]]; [|exact L|].
    - apply nth_error_Some in L. specialize (Hl' (List.length l')).
      rewrite (proj2 (nth_error_None l' _) (Nat.le_refl _)) in Hl'.
      destruct (nth_error (anchors w) _); [discriminate | congruence].
    - apply nth_error_Some in L. specialize (Hl' (List.length (anchors w))).
      rewrite (proj2 (nth_error_None (anchors w) _) (Nat.le_refl _)) in Hl'.
      simpl in Hl'. congruence. }
  destruct (onScroll run w1) as [w2 [u|x]] eqn:E; simpl in *.
  - rewrite Rs. split; [apply registered_addListener|].
    split; [|split].
    + intros a Ha. apply Hreg. rewrite <- Ra. now apply in_map.
    + now intros c [= <-].
    + now rewrite <- (length_map listeners), Ra, length_map.
  - rewrite Rs. split; [apply registered_addListener|].
    split; [|split].
    + intros a Ha. apply Hreg. rewrite <- Ra. now apply in_map.
    + discriminate.
    + now rewrite <- (length_map listeners), Ra, length_map.
Qed.

(** C7, as stated, fails: the page has been scrolled within the
    throttle window, so a call is pending when the cleanup runs; the
    cleanup removes every listener but leaves the timer running, and
    when the timer expires the handler runs and moves the marker from
    the third link to the fourth. *)
Lemma cleanup_pending_timer_counterexample :
  snd Sample.attached = Ok (Some Sample.pageCleanup) /\
  snd (cleanup Sample.pageCleanup Sample.scrolled) = Ok tt /\
  registrations (fst (cleanup Sample.pageCleanup Sample.scrolled))
  = ([], [[]; []; []; []]) /\
  lookupTimer 0 (timers (fst (cleanup Sample.pageCleanup Sample.scrolled)))
  = Some true /\
  map active (anchors (fst (cleanup Sample.pageCleanup Sample.scrolled)))
  = [false; false; true; false] /\
  map active (anchors (fireTimer 0 (fst (cleanup Sample.pageCleanup Sample.scrolled))))
  = [false; false; false; true].
Proof. repeat split. Qed.

(** C7, amended.  The cleanup removes the scroll listener from the
    window and the click listener from every anchor of the node list
    the effect had queried, and changes nothing else; so a scroll
    event after it, with no other scroll listener on the window, runs
    no handler, changes nothing and raises nothing.  The throttle
    timer is not cancelled: a timer running at the cleanup is still
    running after it, and when it expires with a call pending the
    handler runs once more; with the reference to the table of
    contents cleared (after unmount) that run changes no anchor and
    raises nothing. *)
Theorem cleanup_removes_listeners (c : Cleanup) (w : World) :
  List.length (c_anchors c) = List.length (anchors w) ->
  let w' := fst (cleanup c w) in
  snd (cleanup c w) = Ok tt /\
  registered (OnScroll (c_run c)) (scrollListeners w') = false /\
  (forall a, In a (anchors w') ->
             registered (OnClick (c_run c) (c_location c)) (listeners a) = false) /\
  map classList (anchors w') = map classList (anchors w) /\
  calls w' = calls w /\
  (forallb (Listener_eqb (OnScroll (c_run c))) (scrollListeners w) = true ->
   dispatchScroll w' = w') /\
  timers w' = timers w /\
  (lookupTimer (c_run c) (timers w) = Some true ->
   fireTimer (c_run c) w'
   = run_listener onScroll_body (set_timers (clearTimer (c_run c)) w')) /\
  (tocEl w = false ->
   anchors (fireTimer (c_run c) w') = anchors w' /\
   calls (fireTimer (c_run c) w') = calls w').
Proof.
  intros Hlen w'. subst w'.
  destruct (cleanup_cases c w) as (l' & -> & Hl'). simpl fst. simpl snd.
  split; [reflexivity|].
  split; [apply registered_removeListener|].
  split; [|split; [|split; [reflexivity|split; [|split; [reflexivity|split]]]]].
  - intros a Ha. simpl in Ha. apply In_nth_error in Ha as [j Hj].
    rewrite Hl' in Hj.
    destruct (nth_error (anchors w) j) as [b|] eqn:Hb; [|discriminate].
    assert (L : j < List.length (c_anchors c))
      by (rewrite Hlen; apply nth_error_Some; congruence).
    simpl in Hj. rewrite (proj2 (Nat.ltb_lt _ _) L) in Hj. injection Hj as <-.
    apply registered_removeListener.
  - simpl. apply nth_error_ext. intro j. rewrite !nth_error_map, Hl'.
    destruct (nth_error (anchors w) j) as [b|]; [|reflexivity]. simpl.
    now destruct (j <? _).
  - intro Hall. unfold dispatchScroll. simpl scrollListeners.
    rewrite (removeListener_all _ _ Hall). reflexivity.
  - intro Hp. unfold fireTimer, timerExpired.
    unfold run_listener at 1. simpl timers. rewrite Hp. reflexivity.
  - intro Hm. now apply fireTimer_unmounted.
Qed.

Lemma cleanup_removes_listeners_witness :
  List.length (c_anchors Sample.pageCleanup) = List.length (anchors Sample.scrolled) /\
  registered (OnScroll 0) (scrollListeners Sample.scrolled) = true /\
  registered (OnScroll 0)
    (scrollListeners (fst (cleanup Sample.pageCleanup Sample.scrolled))) = false /\
  dispatchScroll (fst (cleanup Sample.pageCleanup Sample.scrolled))
  = fst (cleanup Sample.pageCleanup Sample.scrolled) /\
  timers (fst (cleanup Sample.pageCleanup Sample.scrolled)) = [(0, true)].
Proof.
  split; [reflexivity|]. split; [reflexivity|].
  destruct (cleanup_removes_listeners Sample.pageCleanup Sample.scrolled eq_refl)
    as (_ & H2 & _ & _ & _ & H6 & H7 & _).
  split; [exact H2|]. split; [apply H6; reflexivity|].
  rewrite H7. reflexivity.
Defined.

End Lifecycle.

(* ------------------------------------------------------------------ *)
(** ** The rendered page *)

Section Rendering.
Import JS Dom Render Spec.

Variable getSiteConfig : string -> SiteConfig.
Variable getSidebar : string -> string -> option string.
Variable formatDate : string -> string -> string.

(** C8.  The table-of-contents panel is rendered exactly once whatever
    the page data, with the table-of-contents markup as its content;
    its visibility is hidden when [frontmatter.toc] is [false] and
    visible when it is [true] or absent. *)
Theorem toc_panel_rendered_with_visibility (data : MarkdownRemark) (location : Location) :
  select "Toc" (DocTemplate getSiteConfig getSidebar formatDate data location)
  = [ El "Toc" [("visibility", visibilityRule (toc (frontmatter data)))]
         [("dangerouslySetInnerHTML", tableOfContents data)] [] ] /\
  visibilityRule (Some false) = "hidden" /\
  visibilityRule (Some true) = "visible" /\
  visibilityRule None = "visible".
Proof.
  split; [|repeat split].
  assert (V : match toc (frontmatter data) with
              | Some false => "hidden"
              | _ => "visible"
              end = visibilityRule (toc (frontmatter data)))
    by (now destruct (toc (frontmatter data)) as [[|]|]).
  rewrite <- V. render_cases data getSidebar.
Qed.

(** C9.  The justification of the navigation row follows the sibling
    slugs that exist (are truthy): space-between with both,
    flex-end with only the next one, flex-start otherwise; and the
    row is rendered, with that justification, exactly when at least
    one of them exists. *)
Theorem docNav_justified_by_siblings (data : MarkdownRemark) (location : Location) :
  justifyContent (prevSlug (fields data)) (nextSlug (fields data))
  = justifyRule (truthy (prevSlug (fields data))) (truthy (nextSlug (fields data))) /\
  map styleOf
      (select "DocNav" (DocTemplate getSiteConfig getSidebar formatDate data location))
  = (if truthy (prevSlug (fields data)) || truthy (nextSlug (fields data))
     then [[("justifyContent",
             justifyRule (truthy (prevSlug (fields data)))
                         (truthy (nextSlug (fields data))))]]
     else []) /\
  justifyRule true true = "space-between" /\
  justifyRule false true = "flex-end" /\
  justifyRule true false = "flex-start" /\
  justifyRule false false = "flex-start".
Proof.
  split; [|split; [|repeat split]].
  - unfold justifyContent.
    now destruct (truthy (prevSlug (fields data))),
                 (truthy (nextSlug (fields data))).
  - render_cases data getSidebar.
Qed.

End Rendering.

Lemma toc_panel_rendered_with_visibility_witness :
  Render.select "Toc"
    (Render.DocTemplate Sample.getSiteConfig Sample.getSidebar Sample.formatDate
       (Sample.data (Some false) None None) Sample.location)
  = [ Render.El "Toc" [("visibility", "hidden")]
        [("dangerouslySetInnerHTML",
          "<ul><li><a href=#install>Install</a></li></ul>")] [] ].
Proof.
  exact (proj1 (toc_panel_rendered_with_visibility
                  Sample.getSiteConfig Sample.getSidebar Sample.formatDate
                  (Sample.data (Some false) None None) Sample.location)).
Defined.

Lemma docNav_justified_by_siblings_witness :
  map Render.styleOf
    (Render.select "DocNav"
       (Render.DocTemplate Sample.getSiteConfig Sample.getSidebar Sample.formatDate
          (Sample.data None None (Some "/docs/next.html")) Sample.location))
  = [[("justifyContent", "flex-end")]] /\
  map Render.styleOf
    (Render.select "DocNav"
       (Render.DocTemplate Sample.getSiteConfig Sample.getSidebar Sample.formatDate
          (Sample.data None (Some "") None) Sample.location))
  = [].
Proof.
  split.
  - exact (proj1 (proj2 (docNav_justified_by_siblings
                           Sample.getSiteConfig Sample.getSidebar Sample.formatDate
                           (Sample.data None None (Some "/docs/next.html"))
                           Sample.location))).
  - exact (proj1 (proj2 (docNav_justified_by_siblings
                           Sample.getSiteConfig Sample.getSidebar Sample.formatDate
                           (Sample.data None (Some "") None)
                           Sample.location))).
Defined.

(* ------------------------------------------------------------------ *)
(** ** More on the scroll handler: what it leaves alone *)

Section ScrollFrame.
Import JS Dom Doc Spec.

Lemma remove_idem (t : string) (l : list string) :
  remove t (remove t l) = remove t l.
Proof.
  unfold remove. induction l as [|x l IH]; simpl; [reflexivity|].
  destruct (String.eqb x t) eqn:E; simpl; [exact IH|]. now rewrite E, IH.
Qed.

Lemma remove_add (t : string) (l : list string) :
  remove t (add t l) = remove t l.
Proof.
  unfold add. destruct (contains t l); [reflexivity|].
  unfold remove. rewrite filter_app. simpl.
  now rewrite String.eqb_refl, app_nil_r.
Qed.

Lemma unmark_idem (a : Anchor) : unmark (unmark a) = unmark a.
Proof. unfold unmark. simpl. now rewrite remove_idem. Qed.

Lemma sameButMarker_refl (a : Anchor) : sameButMarker a a.
Proof. repeat split. Qed.

Lemma sameButMarker_unmark (a b : Anchor) :
  sameButMarker a b -> sameButMarker a (unmark b).
Proof.
  intros (H1 & H2 & H3). repeat split; simpl; auto. now rewrite remove_idem.
Qed.

Lemma sameButMarker_mark (a b : Anchor) :
  sameButMarker a b -> sameButMarker a (mark b).
Proof.
  intros (H1 & H2 & H3). repeat split; simpl; auto. now rewrite remove_add.
Qed.

Lemma Forall2_same {A : Type} (R : A -> A -> Prop) (l : list A) :
  (forall a, R a a) -> Forall2 R l l.
Proof. intro H. induction l; constructor; auto. Qed.

Lemma Forall2_update_r {A : Type} (R : A -> A -> Prop) (f : A -> A)
      (k : nat) (l l' : list A) :
  (forall a b, R a b -> R a (f b)) ->
  Forall2 R l l' -> Forall2 R l (update k f l').
Proof.
  intros Hf H. revert k. induction H as [|a b l l' Hab H IH]; intro k.
  - destruct k; constructor.
  - destruct k; simpl; constructor; auto.
Qed.

(** A pass of the loop leaves each anchor as it was or takes the
    marker off it. *)
Lemma scan_sameButMarker (w : World) (l : list Anchor) (i : nat) (acc : option nat) :
  Forall2 sameButMarker l (fst (scan w i l acc)).
Proof.
  revert i acc; induction l as [|a l IH]; intros i acc; simpl.
  - constructor.
  - destruct (decodeURIComponent _) as [d|x];
      [|apply Forall2_same, sameButMarker_refl].
    destruct (targetOf w a) as [el|].
    + specialize (IH (S i) (if Qlt_bool (top el) (innerHeight w / 4)%Q
                            then Some i else acc)).
      destruct (scan w (S i) l _) as [r o]. simpl in *.
      constructor; [apply sameButMarker_unmark, sameButMarker_refl | exact IH].
    + specialize (IH (S i) acc).
      destruct (scan w (S i) l acc) as [r o]. simpl in *.
      constructor; [apply sameButMarker_refl | exact IH].
Qed.

Lemma contains_remove_other (t u : string) (l : list string) :
  t <> u -> contains t (remove u l) = contains t l.
Proof.
  intro Ne. unfold contains, remove.
  induction l as [|x l IH]; simpl; [reflexivity|].
  destruct (String.eqb x u) eqn:E; simpl.
  - apply String.eqb_eq in E. subst x.
    destruct (String.eqb t u) eqn:T; [|exact IH].
    apply String.eqb_eq in T. contradiction.
  - now rewrite IH.
Qed.

Lemma onScroll_body_sameButMarker (w : World) :
  exists l',
    fst (onScroll_body w) = with_anchors l' w /\
    Forall2 sameButMarker (anchors w) l'.
Proof.
  rewrite onScroll_body_scan.
  destruct (tocEl w).
  - pose proof (scan_sameButMarker w (anchors w) 0 None) as H.
    destruct (scan w 0 (anchors w) None) as [l [[k|]|x]]; simpl in H.
    + exists (update k mark l). split; [reflexivity|].
      apply Forall2_update_r; [exact sameButMarker_mark | exact H].
    + exists l. split; [reflexivity | exact H].
    + exists l. split; [reflexivity | exact H].
  - exists (anchors w). split; [now rewrite with_anchors_same|].
    apply Forall2_same, sameButMarker_refl.
Qed.

(** X1.  Whatever its outcome, the scroll handler changes nothing of
    the page but the class lists of the anchors, and of a class list
    nothing but the [active] token: every anchor keeps its place, its
    [href], its listeners and its other class names in their order. *)
Theorem onScroll_touches_only_the_marker (w : World) :
  exists l',
    fst (onScroll_body w) = with_anchors l' w /\
    Forall2 sameButMarker (anchors w) l' /\
    forall t, t <> "active" ->
              map (fun a => contains t (classList a)) l'
              = map (fun a => contains t (classList a)) (anchors w).
Proof.
  destruct (onScroll_body_sameButMarker w) as (l' & E & H).
  exists l'. split; [exact E|]. split; [exact H|].
  intros t Ht. clear E.
  induction H as [|a b l l' (_ & _ & Hc) _ IH]; simpl; [reflexivity|].
  rewrite IH. f_equal.
  rewrite <- (contains_remove_other t "active" (classList b)),
          <- (contains_remove_other t "active" (classList a)) by exact Ht.
  now rewrite Hc.
Qed.

(** *** Running the handler again *)

Lemma scan_snd_href (w : World) (l l' : list Anchor) (i : nat) (acc : option nat) :
  map href l = map href l' ->
  snd (scan w i l acc) = snd (scan w i l' acc).
Proof.
  revert l' i acc; induction l as [|a l IH]; intros [|a' l'] i acc H;
    try discriminate H; [reflexivity|].
  simpl in H. injection H as Ha Hl. simpl.
  unfold targetOf. rewrite <- Ha.
  destruct (decodeURIComponent _) as [d|x]; [|reflexivity].
  destruct (elementWithId w d) as [el|].
  - specialize (IH l' (S i) (if Qlt_bool (top el) (innerHeight w / 4)%Q
                             then Some i else acc) Hl).
    destruct (scan w (S i) l _) as [r o], (scan w (S i) l' _) as [r' o'].
    exact IH.
  - specialize (IH l' (S i) acc Hl).
    destruct (scan w (S i) l acc) as [r o], (scan w (S i) l' acc) as [r' o'].
    exact IH.
Qed.

Lemma scan_idem (w : World) (l : list Anchor) (i : nat) (acc : option nat) :
  scan w i (fst (scan w i l acc)) acc = scan w i l acc.
Proof.
  revert i acc; induction l as [|a l IH]; intros i acc; simpl; [reflexivity|].
  destruct (decodeURIComponent (fragment (href a))) as [d|x] eqn:D.
  - destruct (targetOf w a) as [el|] eqn:T.
    + specialize (IH (S i) (if Qlt_bool (top el) (innerHeight w / 4)%Q
                            then Some i else acc)).
      destruct (scan w (S i) l _) as [r o] eqn:E. simpl in *.
      change (href (unmark a)) with (href a). rewrite D.
      change (targetOf w (unmark a)) with (targetOf w a). rewrite T, IH.
      now rewrite unmark_idem.
    + specialize (IH (S i) acc).
      destruct (scan w (S i) l acc) as [r o] eqn:E. simpl in *.
      now rewrite D, T, IH.
  - simpl. now rewrite D.
Qed.

Lemma map_href_cleared (w : World) (l : list Anchor) :
  map href (map (cleared w) l) = map href l.
Proof.
  rewrite map_map. apply map_ext. intro a. apply href_cleared.
Qed.

Lemma wellFormed_href (a b : Anchor) :
  href a = href b -> wellFormed a = wellFormed b.
Proof. intro H. unfold wellFormed. now rewrite H. Qed.

Lemma forallb_wellFormed_href (l l' : list Anchor) :
  map href l = map href l' ->
  forallb wellFormed l = forallb wellFormed l'.
Proof.
  revert l'; induction l as [|a l IH]; intros [|a' l'] H;
    try discriminate H; [reflexivity|].
  simpl in H. injection H as Ha Hl. simpl.
  now rewrite (wellFormed_href _ _ Ha), (IH _ Hl).
Qed.

Lemma cleared_idem (w : World) (a : Anchor) :
  cleared w (cleared w a) = cleared w a.
Proof.
  unfold cleared at 2. destruct (resolves w a) eqn:R; unfold cleared.
  - rewrite (resolves_href w (unmark a) a eq_refl), R. apply unmark_idem.
  - now rewrite R.
Qed.

Lemma mark_cleared_again (w : World) (a : Anchor) :
  mark (cleared w (mark (cleared w a))) = mark (cleared w a).
Proof.
  unfold cleared at 1.
  rewrite (resolves_href w (mark (cleared w a)) a)
    by (simpl; apply href_cleared).
  unfold cleared. destruct (resolves w a).
  - unfold mark, unmark. simpl. now rewrite remove_add, remove_idem.
  - unfold mark. simpl. f_equal. unfold add at 1.
    now rewrite contains_add.
Qed.

(** X2.  The scroll handler is idempotent: run again on the page as it
    has left it (no scrolling or layout change in between), it makes
    no further change and ends the same way. *)
Theorem onScroll_twice_is_once (w : World) :
  onScroll_body (fst (onScroll_body w)) = onScroll_body w.
Proof.
  rewrite (onScroll_body_scan w).
  destruct (tocEl w) eqn:Hm; [|simpl; rewrite onScroll_body_scan, Hm; reflexivity].
  destruct (scan w 0 (anchors w) None) as [l r] eqn:E.
  pose proof (scan_idem w (anchors w) 0 None) as Hi. rewrite E in Hi. simpl in Hi.
  destruct r as [[k|]|x]; simpl fst.
  - pose proof (scan_ok_wellFormed w (anchors w) 0 None (Some k)) as Hw.
    rewrite E in Hw. specialize (Hw eq_refl).
    destruct (scan_complete w (anchors w) 0 None Hw) as (o & E' & _).
    rewrite E in E'. injection E' as -> <-.
    set (l1 := update k mark (map (cleared w) (anchors w))).
    assert (Hh : map href l1 = map href (anchors w)).
    { unfold l1. rewrite map_update_same by reflexivity.
      apply map_href_cleared. }
    assert (Hw1 : forallb wellFormed l1 = true)
      by (now rewrite (forallb_wellFormed_href _ _ Hh)).
    destruct (scan_complete w l1 0 None Hw1) as (o & E1 & _).
    assert (Ho : o = Some k).
    { pose proof (scan_snd_href w l1 (anchors w) 0 None Hh) as Hs.
      rewrite E1, E in Hs. simpl in Hs. now injection Hs. }
    subst o.
    rewrite onScroll_body_scan. simpl tocEl. rewrite Hm.
    change (anchors (with_anchors l1 w)) with l1.
    unfold with_anchors at 1. rewrite scan_set_anchors, E1.
    f_equal. unfold with_anchors, set_anchors. simpl. f_equal.
    apply nth_error_ext. intro j. unfold l1.
    rewrite !nth_error_update, !nth_error_map, nth_error_update, nth_error_map.
    destruct (Nat.eqb j k); destruct (nth_error (anchors w) j) as [a|]; simpl;
      try reflexivity.
    + now rewrite mark_cleared_again.
    + now rewrite cleared_idem.
  - rewrite onScroll_body_scan. simpl tocEl. rewrite Hm.
    change (anchors (with_anchors l w)) with l.
    unfold with_anchors at 1. rewrite scan_set_anchors, Hi. reflexivity.
  - rewrite onScroll_body_scan. simpl tocEl. rewrite Hm.
    change (anchors (with_anchors l w)) with l.
    unfold with_anchors at 1. rewrite scan_set_anchors, Hi. reflexivity.
Qed.

End ScrollFrame.

(* ------------------------------------------------------------------ *)
(** ** More on the effect: what attaching does *)

Section Attach.
Import JS Dom Doc Spec.
Local Open Scope nat_scope.

(** The effect on a mounted table of contents, step by step. *)
Lemma effect_cases (run : nat) (location : Location) (w : World) :
  tocEl w = true ->
  effect run location w
  = (fst (onScroll run
            (set_scrollListeners (addListener (OnScroll run))
               (with_anchors (map (listen (OnClick run location)) (anchors w)) w))),
     match snd (onScroll run
                  (set_scrollListeners (addListener (OnScroll run))
                     (with_anchors (map (listen (OnClick run location)) (anchors w)) w)))
     with
     | Ok _ => Ok (Some (mkCleanup run location (anchors w)))
     | Throw x => Throw x
     end).
Proof.
  intro Hm. unfold effect, bind, gets, querySelectorAll. rewrite Hm. simpl.
  destruct (forEach_update (listen (OnClick run location))
              (fun i => addEventListener i (OnClick run location))
              (anchors w) 0 w) as (l' & -> & Hl'); [reflexivity|].
  assert (El : l' = map (listen (OnClick run location)) (anchors w)).
  { apply nth_error_ext. intro j. rewrite Hl', nth_error_map.
    destruct (nth_error (anchors w) j) as [a|] eqn:Ha; [|reflexivity]. simpl.
    assert (L : j < List.length (anchors w))
      by (apply nth_error_Some; congruence).
    now rewrite (proj2 (Nat.ltb_lt _ _) L). }
  subst l'. unfold modify.
  destruct (onScroll run _) as [w2 [u|x]]; reflexivity.
Qed.

Lemma map_listeners_listen (f : Listener) (l : list Anchor) :
  map listeners (map (listen f) l) = map (fun a => addListener f (listeners a)) l.
Proof. now rewrite map_map. Qed.

Lemma effect_registrations (run : nat) (location : Location) (w : World) :
  registrations (fst (effect run location w))
  = if tocEl w
    then (addListener (OnScroll run) (scrollListeners w),
          map (fun a => addListener (OnClick run location) (listeners a)) (anchors w))
    else registrations w.
Proof.
  destruct (tocEl w) eqn:Hm.
  - rewrite (effect_cases _ _ _ Hm). simpl fst.
    rewrite onScroll_registrations. unfold registrations. simpl.
    now rewrite map_listeners_listen.
  - unfold effect, bind, gets. now rewrite Hm.
Qed.

Lemma forallb_wellFormed_listen (f : Listener) (l : list Anchor) :
  forallb wellFormed (map (listen f) l) = forallb wellFormed l.
Proof.
  apply forallb_wellFormed_href. rewrite map_map. now apply map_ext.
Qed.

(** X3.  What the effect returns.  With the reference to the table of
    contents not set it returns nothing and has changed nothing.
    Otherwise it returns the cleanup for the node list it has queried,
    unless the first run of the scroll handler throws (a malformed
    fragment, the throttle of this run not yet started): then the
    URIError leaves the effect and no cleanup is returned, although
    the listeners have been registered by then. *)
Theorem effect_returns_cleanup (run : nat) (location : Location) (w : World) :
  snd (effect run location w)
  = (if tocEl w
     then if match lookupTimer run (timers w) with None => true | Some _ => false end
             && negb (forallb wellFormed (anchors w))
          then Throw URIError
          else Ok (Some (mkCleanup run location (anchors w)))
     else Ok None) /\
  (tocEl w = false -> fst (effect run location w) = w) /\
  registrations (fst (effect run location w))
  = (if tocEl w
     then (addListener (OnScroll run) (scrollListeners w),
           map (fun a => addListener (OnClick run location) (listeners a)) (anchors w))
     else registrations w).
Proof.
  split; [|split; [|apply effect_registrations]].
  - destruct (tocEl w) eqn:Hm.
    + rewrite (effect_cases _ _ _ Hm). simpl snd.
      unfold onScroll, throttled. simpl timers.
      destruct (lookupTimer run (timers w)); [reflexivity|].
      rewrite onScroll_body_outcome. simpl tocEl. simpl anchors.
      rewrite Hm, forallb_wellFormed_listen. simpl.
      now destruct (forallb wellFormed (anchors w)).
    + unfold effect, bind, gets. now rewrite Hm.
  - intro Hm. unfold effect, bind, gets. now rewrite Hm.
Qed.

Lemma effect_returns_cleanup_witness :
  snd (effect 0 Sample.location Sample.unmounted) = Ok None /\
  fst (effect 0 Sample.location Sample.unmounted) = Sample.unmounted /\
  snd (effect 0 Sample.location Sample.malformedPage) = Throw URIError /\
  registrations (fst (effect 0 Sample.location Sample.malformedPage))
  = ([OnScroll 0],
     [[OnClick 0 Sample.location]; [OnClick 0 Sample.location];
      [OnClick 0 Sample.location]]).
Proof.
  destruct (effect_returns_cleanup 0 Sample.location Sample.unmounted)
    as (H1 & H2 & _).
  destruct (effect_returns_cleanup 0 Sample.location Sample.malformedPage)
    as (H3 & _ & H4).
  split; [rewrite H1; reflexivity|]. split; [apply H2; reflexivity|].
  split; [rewrite H3; reflexivity | rewrite H4; reflexivity].
Defined.

(** *** Attach, then detach *)

Lemma filter_not_registered (f : Listener) (l : list Listener) :
  registered f l = false ->
  filter (fun g => negb (Listener_eqb f g)) l = l.
Proof.
  unfold registered. induction l as [|g l IH]; simpl; [reflexivity|].
  intro H. apply orb_false_iff in H as [Hg Hl]. rewrite Hg. simpl.
  now rewrite (IH Hl).
Qed.

Lemma removeListener_addListener (f : Listener) (l : list Listener) :
  registered f l = false -> removeListener f (addListener f l) = l.
Proof.
  intro H. unfold addListener. unfold registered in H. rewrite H.
  unfold removeListener. rewrite filter_app. simpl.
  rewrite Listener_eqb_refl. simpl.
  now rewrite app_nil_r, filter_not_registered.
Qed.

Lemma cleanup_registrations (c : Cleanup) (w : World) :
  List.length (c_anchors c) = List.length (anchors w) ->
  registrations (fst (cleanup c w))
  = (removeListener (OnScroll (c_run c)) (scrollListeners w),
     map (fun a => removeListener (OnClick (c_run c) (c_location c)) (listeners a))
         (anchors w)).
Proof.
  intro Hlen. destruct (cleanup_cases c w) as (l' & -> & Hl').
  unfold registrations. simpl. f_equal.
  apply nth_error_ext. intro j. rewrite !nth_error_map, Hl'.
  destruct (nth_error (anchors w) j) as [a|] eqn:Ha; [|reflexivity]. simpl.
  assert (L : j < List.length (c_anchors c))
    by (rewrite Hlen; apply nth_error_Some; congruence).
  now rewrite (proj2 (Nat.ltb_lt _ _) L).
Qed.

Lemma effect_length (run : nat) (location : Location) (w : World) :
  List.length (anchors (fst (effect run location w))) = List.length (anchors w).
Proof.
  pose proof (effect_registrations run location w) as R.
  unfold registrations in R. destruct (tocEl w).
  - injection R as _ Ra. rewrite <- (length_map listeners), Ra. apply length_map.
  - injection R as _ Ra. rewrite <- (length_map listeners), Ra. apply length_map.
Qed.

(** X4.  Attaching and then detaching is a round trip on the
    registered listeners: when the closures of the run are registered
    nowhere beforehand (they are new functions), the effect followed
    by its cleanup leaves on the window and on every anchor exactly
    the listeners that were there before. *)
Theorem attach_then_detach_restores_listeners
        (run : nat) (location : Location) (w : World) :
  tocEl w = true ->
  freshRun run location w = true ->
  registrations (fst (cleanup (mkCleanup run location (anchors w))
                              (fst (effect run location w))))
  = registrations w.
Proof.
  intros Hm Hf. unfold freshRun in Hf.
  apply andb_true_iff in Hf as [Hs Ha]. apply negb_true_iff in Hs.
  rewrite cleanup_registrations by (simpl; now rewrite effect_length).
  pose proof (effect_registrations run location w) as R. rewrite Hm in R.
  unfold registrations in R. injection R as Rs Ra. simpl c_run. simpl c_location.
  rewrite Rs, (removeListener_addListener _ _ Hs).
  unfold registrations. f_equal.
  rewrite <- (map_map listeners (removeListener (OnClick run location))), Ra, map_map.
  clear Ra Rs. induction (anchors w) as [|a l IH]; simpl in *; [reflexivity|].
  apply andb_true_iff in Ha as [H1 H2]. apply negb_true_iff in H1.
  now rewrite (removeListener_addListener _ _ H1), (IH H2).
Qed.

Lemma attach_then_detach_restores_listeners_witness :
  tocEl Sample.page = true /\
  freshRun 0 Sample.location Sample.page = true /\
  registrations (fst (effect 0 Sample.location Sample.page))
  = ([OnScroll 0],
     [[OnClick 0 Sample.location]; [OnClick 0 Sample.location];
      [OnClick 0 Sample.location]; [OnClick 0 Sample.location]]) /\
  registrations (fst (cleanup (mkCleanup 0 Sample.location (anchors Sample.page))
                              (fst (effect 0 Sample.location Sample.page))))
  = ([], [[]; []; []; []]).
Proof.
  split; [reflexivity|]. split; [reflexivity|]. split; [reflexivity|].
  rewrite (attach_then_detach_restores_listeners 0 Sample.location Sample.page
             eq_refl eq_refl).
  reflexivity.
Defined.

End Attach.

(* ------------------------------------------------------------------ *)
(** ** The handler reads only the [href]s and the class lists *)

Section Look.
Import JS Dom Doc Spec.

Lemma scan_look (w w1 : World) (l l1 : list Anchor) (i : nat) (acc : option nat) :
  document w1 = document w ->
  innerHeight w1 = innerHeight w ->
  map look l1 = map look l ->
  snd (scan w1 i l1 acc) = snd (scan w i l acc) /\
  map look (fst (scan w1 i l1 acc)) = map look (fst (scan w i l acc)).
Proof.
  intros Hd Hh. revert l1 i acc; induction l as [|a l IH];
    intros [|a1 l1] i acc H; try discriminate H; [split; reflexivity|].
  simpl in H. injection H as Hr Hc Hl. simpl.
  unfold targetOf, elementWithId. rewrite Hd, Hh, Hr.
  destruct (decodeURIComponent _) as [d|x].
  - destruct (find _ _) as [el|].
    + specialize (IH l1 (S i) (if Qlt_bool (top el) (innerHeight w / 4)%Q
                               then Some i else acc) Hl).
      destruct (scan w1 (S i) l1 _) as [r1 o1], (scan w (S i) l _) as [r o].
      simpl in *. destruct IH as [-> ->]. unfold look at 1 3. simpl.
      now rewrite Hr, Hc.
    + specialize (IH l1 (S i) acc Hl).
      destruct (scan w1 (S i) l1 acc) as [r1 o1], (scan w (S i) l acc) as [r o].
      simpl in *. destruct IH as [-> ->]. unfold look at 1 3.
      now rewrite Hr, Hc.
  - simpl. unfold look at 1 3. now rewrite Hr, Hc, Hl.
Qed.

Lemma update_mark_look (k : nat) (l l1 : list Anchor) :
  map look l1 = map look l ->
  map look (update k mark l1) = map look (update k mark l).
Proof.
  revert k l1; induction l as [|a l IH]; intros k [|a1 l1] H;
    try discriminate H; [reflexivity|].
  simpl in H. injection H as Hr Hc Hl.
  destruct k; simpl.
  - unfold look at 1 3. simpl. now rewrite Hr, Hc, Hl.
  - unfold look at 1 3. now rewrite Hr, Hc, (IH k l1 Hl).
Qed.

(** Two pages that agree on the reference, the document, the viewport
    height and the anchors' [href]s and class lists are treated alike
    by the scroll handler. *)
Lemma onScroll_body_look (w w1 : World) :
  tocEl w1 = tocEl w ->
  document w1 = document w ->
  innerHeight w1 = innerHeight w ->
  map look (anchors w1) = map look (anchors w) ->
  snd (onScroll_body w1) = snd (onScroll_body w) /\
  map look (anchors (fst (onScroll_body w1)))
  = map look (anchors (fst (onScroll_body w))).
Proof.
  intros Hm Hd Hh Hl. rewrite !onScroll_body_scan, Hm.
  destruct (tocEl w); [|split; [reflexivity | exact Hl]].
  destruct (scan_look w w1 (anchors w) (anchors w1) 0 None Hd Hh Hl) as [Hs Hf].
  destruct (scan w1 0 (anchors w1) None) as [l1 r1],
           (scan w 0 (anchors w) None) as [l r].
  simpl in Hs, Hf. subst r1.
  destruct r as [[k|]|x]; simpl; split; auto.
  now apply update_mark_look.
Qed.

Lemma map_look_listen (f : Listener) (l : list Anchor) :
  map look (map (listen f) l) = map look l.
Proof. rewrite map_map. now apply map_ext. Qed.

(** X5.  Attaching reflects the reading position at once: when the
    effect runs on a mounted table of contents (the throttle of the
    new closure not yet started), the anchors come out with the
    [href]s and class lists that one run of the scroll handler on the
    page gives, without any scroll event. *)
Theorem effect_marks_at_once (run : nat) (location : Location) (w : World) :
  tocEl w = true ->
  lookupTimer run (timers w) = None ->
  map look (anchors (fst (effect run location w)))
  = map look (anchors (fst (onScroll_body w))).
Proof.
  intros Hm Ht. rewrite (effect_cases _ _ _ Hm). simpl fst.
  unfold onScroll, throttled. simpl timers. rewrite Ht.
  apply onScroll_body_look; try reflexivity.
  simpl. apply map_look_listen.
Qed.

Lemma effect_marks_at_once_witness :
  tocEl Sample.page = true /\
  lookupTimer 0 (timers Sample.page) = None /\
  map active (anchors (fst (effect 0 Sample.location Sample.page)))
  = [false; false; true; false] /\
  map look (anchors (fst (effect 0 Sample.location Sample.page)))
  = map look (anchors (fst (onScroll_body Sample.page))).
Proof.
  split; [reflexivity|]. split; [reflexivity|]. split; [reflexivity|].
  apply (effect_marks_at_once 0 Sample.location Sample.page); reflexivity.
Defined.

End Look.

(* ------------------------------------------------------------------ *)
(** ** What no event on the page changes *)

Section Frame.
Import JS Dom Doc Spec.

Lemma sameButMarker_maps (l l' : list Anchor) :
  Forall2 sameButMarker l l' ->
  map href l' = map href l /\ map listeners l' = map listeners l.
Proof.
  induction 1 as [|a b l l' (H1 & H2 & _) _ [IH1 IH2]]; simpl.
  - split; reflexivity.
  - now rewrite H1, H2, IH1, IH2.
Qed.


Lemma onScroll_body_frame (w : World) :
  frame (fst (onScroll_body w)) = frame w.
Proof.
  destruct (onScroll_body_sameButMarker w) as (l' & -> & H).
  destruct (sameButMarker_maps _ _ H) as [Hh Hl].
  unfold frame, registrations. simpl. now rewrite Hh, Hl.
Qed.

Lemma onScroll_frame (run : nat) (w : World) :
  frame (fst (onScroll run w)) = frame w.
Proof.
  unfold onScroll, throttled. destruct (lookupTimer run (timers w)).
  - reflexivity.
  - now rewrite onScroll_body_frame.
Qed.






(** X7.  A click on a link itself whose fragment resolves to an
    element, on a page whose path and query hold no ['#'].  When the
    browser accepts the URL, the history entry points to the heading
    scrolled to: the fragment of the current URL decodes to the id of
    that element; and a second click on the same link leaves the
    history as the first did.  When the browser refuses the URL, the
    history is left as it was, as it is by a click on an element
    inside the link. *)
Theorem click_history_points_to_heading
        (location : Location) (a : Anchor) (w : World) (i name : string)
        (el : Element) :
  decodeURIComponent (fragment (href a)) = Ok i ->
  elementWithId w i = Some el ->
  occurs "#" (pathname location ++ search location) = false ->
  let url := pathname location ++ search location ++ "#" ++ fragment (href a) in
  let w1 := fst (onClick location (mkEvent (Link a)) w) in
  (canRewriteURL w url = true ->
   decodeURIComponent (fragment (current (history w1))) = Ok (id el) /\
   history (fst (onClick location (mkEvent (Link a)) w1)) = history w1) /\
  (canRewriteURL w url = false -> history w1 = history w) /\
  history (fst (onClick location (mkEvent (NotLink name)) w)) = history w.
Proof.
  intros Hd He Hp url w1.
  assert (Hi : id el = i).
  { unfold elementWithId in He. apply find_some in He as [_ He].
    now apply String.eqb_eq. }
  split; [|split].
  - intro Hu. subst w1.
    rewrite (onClick_heading_link location a w i el Hd He Hu).
    cbn [fst]. fold url. set (W1 := log _ _). split.
    + assert (Hf : fragment url = fragment (href a))
        by exact (fragment_of_url _ _ _ Hp).
      change (current (history W1)) with url. rewrite Hf, Hd. now rewrite Hi.
    + rewrite (onClick_heading_link location a W1 i el Hd He Hu).
      reflexivity.
  - intro Hu. subst w1. rewrite onClick_cases. simpl hrefOf. cbv iota.
    rewrite Hd, He. cbv zeta. fold url. now rewrite Hu.
  - now rewrite click_inside_link.
Qed.

Lemma click_history_points_to_heading_witness :
  decodeURIComponent (fragment (href Sample.faqLink)) = Ok "faq" /\
  elementWithId Sample.brokenPage "faq" = Some (mkElement "faq" (-10)) /\
  occurs "#" (pathname Sample.location ++ search Sample.location) = false /\
  canRewriteURL Sample.brokenPage "/docs/intro.html?v=1#faq" = true /\
  current (history (fst (onClick Sample.location Sample.faqClick
                                 Sample.brokenPage)))
  = "/docs/intro.html?v=1#faq" /\
  decodeURIComponent
    (fragment (current (history (fst (onClick Sample.location Sample.faqClick
                                              Sample.brokenPage)))))
  = Ok "faq" /\
  history (fst (onClick Sample.location Sample.codeClick Sample.brokenPage))
  = history Sample.brokenPage.
Proof.
  destruct (click_history_points_to_heading
              Sample.location Sample.faqLink Sample.brokenPage "faq" "code"
              (mkElement "faq" (-10)) eq_refl eq_refl eq_refl)
    as (H1 & _ & H3).
  split; [reflexivity|]. split; [reflexivity|]. split; [reflexivity|].
  split; [reflexivity|]. split; [reflexivity|].
  split; [apply H1; reflexivity | exact H3].
Defined.

End Frame.

(* ------------------------------------------------------------------ *)
(** ** Listeners of one run and of another *)

Section Runs.
Import JS Dom Doc Spec.
Local Open Scope nat_scope.

Lemma effect_frame (run : nat) (location : Location) (w : World) :
  map href (anchors (fst (effect run location w))) = map href (anchors w).
Proof.
  destruct (tocEl w) eqn:Hm.
  - rewrite (effect_cases _ _ _ Hm). simpl fst.
    pose proof (onScroll_frame run
                  (set_scrollListeners (addListener (OnScroll run))
                     (with_anchors (map (listen (OnClick run location)) (anchors w)) w)))
      as F.
    pose proof (f_equal (fun x => snd (fst (fst x))) F) as H.
    simpl in H. rewrite H, map_map. now apply map_ext.
  - unfold effect, bind, gets. now rewrite Hm.
Qed.

(** X8.  After the effect has run on a page whose anchors had no click
    listener, a click on an anchor, or on an element inside it, runs
    the click listener of that render exactly once and nothing else;
    the target of the event it gets is the element clicked: the anchor
    for a click on the anchor itself.  A click on an element inside
    the anchor so ends, after the prevention of the default, in an
    uncaught TypeError. *)
Theorem click_after_attach_runs_onClick_once
        (run : nat) (location : Location) (w : World) (i : nat) (a : Anchor) :
  tocEl w = true ->
  noClickListeners w = true ->
  nth_error (anchors w) i = Some a ->
  exists a1,
    nth_error (anchors (fst (effect run location w))) i = Some a1 /\
    href a1 = href a /\
    listeners a1 = [OnClick run location] /\
    dispatchClick i None (fst (effect run location w))
    = run_listener (onClick location (mkEvent (Link a1)))
                   (fst (effect run location w)) /\
    forall name,
      dispatchClick i (Some name) (fst (effect run location w))
      = run_listener (onClick location (mkEvent (NotLink name)))
                     (fst (effect run location w)) /\
      dispatchClick i (Some name) (fst (effect run location w))
      = log (Uncaught TypeError)
            (log PreventDefault (fst (effect run location w))).
Proof.
  intros Hm Hn Ha.
  pose proof (effect_registrations run location w) as R. rewrite Hm in R.
  unfold registrations in R. injection R as _ Rl.
  pose proof (effect_frame run location w) as Rh.
  set (w1 := fst (effect run location w)) in *.
  pose proof (f_equal (fun l => nth_error l i) Rl) as Hl.
  pose proof (f_equal (fun l => nth_error l i) Rh) as Hh.
  simpl in Hl, Hh. rewrite !nth_error_map, Ha in Hl, Hh.
  destruct (nth_error (anchors w1) i) as [a1|] eqn:E1; [|discriminate Hl].
  simpl in Hl, Hh. injection Hl as Hl. injection Hh as Hh.
  assert (La : listeners a = []).
  { unfold noClickListeners in Hn. rewrite forallb_forall in Hn.
    specialize (Hn a (nth_error_In _ _ Ha)). now destruct (listeners a). }
  rewrite La in Hl. simpl in Hl.
  exists a1. repeat split; auto.
  - unfold dispatchClick. rewrite E1, Hl. reflexivity.
  - unfold dispatchClick. rewrite E1, Hl. reflexivity.
  - unfold dispatchClick. rewrite E1, Hl. simpl.
    unfold run_listener. now rewrite click_inside_link.
Qed.

Lemma click_after_attach_runs_onClick_once_witness :
  tocEl Sample.page = true /\
  noClickListeners Sample.page = true /\
  calls (dispatchClick 2 None (fst (effect 0 Sample.location Sample.page)))
  = [ PreventDefault; ReplaceState "/docs/intro.html?v=1#faq";
      ScrollTo 0 (40 + -10 - 102)%Q "smooth" ] /\
  calls (dispatchClick 2 (Some "code")
           (fst (effect 0 Sample.location Sample.page)))
  = [ PreventDefault; Uncaught TypeError ] /\
  exists a1,
    nth_error (anchors (fst (effect 0 Sample.location Sample.page))) 2 = Some a1 /\
    dispatchClick 2 None (fst (effect 0 Sample.location Sample.page))
    = run_listener (onClick Sample.location (mkEvent (Link a1)))
                   (fst (effect 0 Sample.location Sample.page)) /\
    dispatchClick 2 (Some "code") (fst (effect 0 Sample.location Sample.page))
    = log (Uncaught TypeError)
          (log PreventDefault (fst (effect 0 Sample.location Sample.page))).
Proof.
  split; [reflexivity|]. split; [reflexivity|]. split; [reflexivity|].
  split; [reflexivity|].
  destruct (click_after_attach_runs_onClick_once 0 Sample.location Sample.page 2
              (Sample.anchor "https://goproxy.io/docs/intro.html#faq")
              eq_refl eq_refl eq_refl) as (a1 & H1 & _ & _ & H4 & H5).
  exists a1. split; [exact H1|]. split; [exact H4|].
  exact (proj2 (H5 "code")).
Defined.

Lemma Location_eqb_eq (a b : Location) : Location_eqb a b = true -> a = b.
Proof.
  destruct a as [p q], b as [p' q']. unfold Location_eqb. simpl.
  intro H. apply andb_true_iff in H as [H1 H2].
  apply String.eqb_eq in H1, H2. now subst.
Qed.

Lemma Listener_eqb_eq (f g : Listener) : Listener_eqb f g = true -> f = g.
Proof.
  destruct f as [r l|r], g as [r' l'|r']; simpl; try discriminate.
  - intro H. apply andb_true_iff in H as [H1 H2].
    apply Nat.eqb_eq in H1. apply Location_eqb_eq in H2. now subst.
  - intro H. apply Nat.eqb_eq in H. now subst.
Qed.

Lemma registered_removeListener_other (f g : Listener) (l : list Listener) :
  g <> f -> registered g (removeListener f l) = registered g l.
Proof.
  intro Ne. unfold registered, removeListener.
  induction l as [|h l IH]; simpl; [reflexivity|].
  destruct (Listener_eqb f h) eqn:E; simpl.
  - apply Listener_eqb_eq in E. subst h.
    destruct (Listener_eqb g f) eqn:G; [|exact IH].
    apply Listener_eqb_eq in G. contradiction.
  - now rewrite IH.
Qed.

(** X9.  The cleanup removes the listeners of its own run only: any
    other listener (of another run of the effect, say) is registered
    on the window and on each anchor after the cleanup exactly if it
    was before. *)
Theorem cleanup_keeps_other_listeners (c : Cleanup) (w : World) (g : Listener) :
  List.length (c_anchors c) = List.length (anchors w) ->
  g <> OnScroll (c_run c) ->
  g <> OnClick (c_run c) (c_location c) ->
  registered g (scrollListeners (fst (cleanup c w)))
  = registered g (scrollListeners w) /\
  map (fun a => registered g (listeners a)) (anchors (fst (cleanup c w)))
  = map (fun a => registered g (listeners a)) (anchors w).
Proof.
  intros Hlen Hs Hc.
  pose proof (cleanup_registrations c w Hlen) as R.
  unfold registrations in R. injection R as Rs Rl.
  split.
  - rewrite Rs. now apply registered_removeListener_other.
  - rewrite <- (map_map listeners (registered g)), Rl, map_map.
    apply map_ext. intro a. now apply registered_removeListener_other.
Qed.

Lemma cleanup_keeps_other_listeners_witness :
  List.length (c_anchors Sample.pageCleanup) = List.length (anchors Sample.crowded) /\
  registrations (fst (cleanup Sample.pageCleanup
                              (fst (effect 0 Sample.location Sample.crowded))))
  = registrations Sample.crowded /\
  registered (OnScroll 7)
    (scrollListeners (fst (cleanup Sample.pageCleanup
                                   (fst (effect 0 Sample.location Sample.crowded)))))
  = registered (OnScroll 7)
      (scrollListeners (fst (effect 0 Sample.location Sample.crowded))).
Proof.
  split; [reflexivity|]. split; [reflexivity|].
  apply (cleanup_keeps_other_listeners Sample.pageCleanup
           (fst (effect 0 Sample.location Sample.crowded)) (OnScroll 7));
    [reflexivity | discriminate | discriminate].
Defined.

End Runs.

(* ------------------------------------------------------------------ *)
(** ** More on the rendered page *)

Section RenderedParts.
Import JS Dom Render Spec.

Variable getSiteConfig : string -> SiteConfig.
Variable getSidebar : string -> string -> option string.
Variable formatDate : string -> string -> string.

(** X10.  The author and creation date are rendered exactly when
    [frontmatter.author], [frontmatter.createdAt] and
    [fields.createdAt] are all truthy.  The date shown, and put into
    [dateTime], is [fields.createdAt] formatted with the site's date
    format; [frontmatter.createdAt] only decides whether the line is
    there. *)
Theorem created_line_rendered_from_fields (data : MarkdownRemark) (location : Location) :
  select "CreateDate" (DocTemplate getSiteConfig getSidebar formatDate data location)
  = (if truthy (author (frontmatter data))
        && truthy (fm_createdAt (frontmatter data))
        && truthy (createdAt (fields data))
     then [ El "CreateDate" []
              [("dateTime", match createdAt (fields data) with
                            | Some d => d | None => "" end)]
              [Text (formatDate
                       (match createdAt (fields data) with
                        | Some d => d | None => "" end)
                       (dateFormat (getSiteConfig (pathname location))))] ]
     else []) /\
  select "Author" (DocTemplate getSiteConfig getSidebar formatDate data location)
  = (if truthy (author (frontmatter data))
        && truthy (fm_createdAt (frontmatter data))
        && truthy (createdAt (fields data))
     then [ El "Author" [] [] [text (author (frontmatter data))] ]
     else []).
Proof. split; render_cases data getSidebar. Qed.

(** X11.  The update date is rendered exactly when
    [frontmatter.updatedAt] and [fields.updatedAt] are both truthy,
    whatever the other fields; the date shown is [fields.updatedAt],
    under the site's label. *)
Theorem updated_line_rendered_from_fields (data : MarkdownRemark) (location : Location) :
  select "Bottom" (DocTemplate getSiteConfig getSidebar formatDate data location)
  = (if truthy (fm_updatedAt (frontmatter data)) && truthy (updatedAt (fields data))
     then [ El "Bottom" [] []
              [ El "UpdateDateLabel" [] []
                  [Text (updatedAtLabel (doc (getSiteConfig (pathname location))))];
                El "UpdateDate" []
                  [("dateTime", match updatedAt (fields data) with
                                | Some d => d | None => "" end)]
                  [Text (formatDate
                           (match updatedAt (fields data) with
                            | Some d => d | None => "" end)
                           (dateFormat (getSiteConfig (pathname location))))] ] ]
     else []).
Proof. render_cases data getSidebar. Qed.

(** X12.  The navigation links: a link to [prevSlug] when it is
    truthy, then a link to [nextSlug] when it is truthy, and no other
    link; the previous one shows an arrow before [prevTitle], the next
    one [nextTitle] before an arrow. *)
Theorem nav_links_follow_slugs (data : MarkdownRemark) (location : Location) :
  select "Link" (DocTemplate getSiteConfig getSidebar formatDate data location)
  = ((if truthy (prevSlug (fields data))
      then [ El "Link" []
               [("to", match prevSlug (fields data) with
                       | Some s => s | None => "" end)]
               [Text "← "; text (prevTitle (fields data))] ]
      else [])
     ++
     (if truthy (nextSlug (fields data))
      then [ El "Link" []
               [("to", match nextSlug (fields data) with
                       | Some s => s | None => "" end)]
               [text (nextTitle (fields data)); Text " →"] ]
      else []))%list /\
  List.length
    (select "DocNavItem" (DocTemplate getSiteConfig getSidebar formatDate data location))
  = ((if truthy (prevSlug (fields data)) then 1 else 0)
     + (if truthy (nextSlug (fields data)) then 1 else 0))%nat.
Proof. split; render_cases data getSidebar. Qed.

(** X13.  Whatever the page data, the page has exactly one title with
    [frontmatter.title], one SEO element with that title, and one
    content element with [html]; the sidebar is rendered exactly when
    there is sidebar data for the page's [type], and with that data. *)
Theorem fixed_parts_and_sidebar (data : MarkdownRemark) (location : Location) :
  select "Title" (DocTemplate getSiteConfig getSidebar formatDate data location)
  = [ El "Title" [] [] [Text (title (frontmatter data))] ] /\
  select "SEO" (DocTemplate getSiteConfig getSidebar formatDate data location)
  = [ El "SEO" [] [("title", title (frontmatter data))] [] ] /\
  select "MarkdownContent"
    (DocTemplate getSiteConfig getSidebar formatDate data location)
  = [ El "MarkdownContent" [] [("html", html data)] [] ] /\
  select "Sidebar" (DocTemplate getSiteConfig getSidebar formatDate data location)
  = match getSidebar (pathname location) (type (fields data)) with
    | Some nav => [ El "Sidebar" []
                      [("nav", nav);
                       ("location", String.append (pathname location)
                                                  (search location))] [] ]
    | None => []
    end.
Proof. repeat split; render_cases data getSidebar. Qed.

End RenderedParts.

Lemma created_line_rendered_from_fields_witness :
  Render.select "CreateDate"
    (Render.DocTemplate Sample.getSiteConfig Sample.getSidebar Sample.formatDate
       Sample.post Sample.location)
  = [ Render.El "CreateDate" [] [("dateTime", "2020-01-02")]
        [Render.Text "2020-01-02"] ] /\
  Render.select "CreateDate"
    (Render.DocTemplate Sample.getSiteConfig Sample.getSidebar Sample.formatDate
       Sample.undatedPost Sample.location)
  = [].
Proof.
  split.
  - exact (proj1 (created_line_rendered_from_fields
                    Sample.getSiteConfig Sample.getSidebar Sample.formatDate
                    Sample.post Sample.location)).
  - exact (proj1 (created_line_rendered_from_fields
                    Sample.getSiteConfig Sample.getSidebar Sample.formatDate
                    Sample.undatedPost Sample.location)).
Defined.

Lemma updated_line_rendered_from_fields_witness :
  Render.select "UpdateDate"
    (Render.DocTemplate Sample.getSiteConfig Sample.getSidebar Sample.formatDate
       Sample.post Sample.location)
  = [ Render.El "UpdateDate" [] [("dateTime", "2020-02-02")]
        [Render.Text "2020-02-02"] ] /\
  Render.select "Bottom"
    (Render.DocTemplate Sample.getSiteConfig Sample.getSidebar Sample.formatDate
       Sample.undatedPost Sample.location)
  = [].
Proof.
  split; [reflexivity|].
  exact (updated_line_rendered_from_fields
           Sample.getSiteConfig Sample.getSidebar Sample.formatDate
           Sample.undatedPost Sample.location).
Defined.

Lemma nav_links_follow_slugs_witness :
  map Render.propsOf
    (Render.select "Link"
       (Render.DocTemplate Sample.getSiteConfig Sample.getSidebar Sample.formatDate
          Sample.post Sample.location))
  = [ [("to", "/a.html")]; [("to", "/b.html")] ].
Proof.
  rewrite (proj1 (nav_links_follow_slugs
                    Sample.getSiteConfig Sample.getSidebar Sample.formatDate
                    Sample.post Sample.location)).
  reflexivity.
Defined.

Lemma fixed_parts_and_sidebar_witness :
  Render.select "Sidebar"
    (Render.DocTemplate Sample.getSiteConfig Sample.getSidebar Sample.formatDate
       Sample.post Sample.location)
  = [] /\
  Render.select "Title"
    (Render.DocTemplate Sample.getSiteConfig Sample.getSidebar Sample.formatDate
       Sample.post Sample.location)
  = [ Render.El "Title" [] [] [Render.Text "Intro"] ].
Proof.
  destruct (fixed_parts_and_sidebar
              Sample.getSiteConfig Sample.getSidebar Sample.formatDate
              Sample.post Sample.location) as (H1 & _ & _ & H4).
  split; [exact H4 | exact H1].
Defined.

(* ------------------------------------------------------------------ *)
(** ** Scrolling down *)

Section ScrollDown.
Import JS Dom Doc Spec.
Local Open Scope nat_scope.

Lemma find_movedUp (d d' : list Element) (i : string) (el : Element) :
  movedUp d d' ->
  find (fun e => String.eqb (id e) i) d = Some el ->
  exists el', find (fun e => String.eqb (id e) i) d' = Some el' /\
              (top el' <= top el)%Q.
Proof.
  induction 1 as [|e e' d d' [Hi Ht] _ IH]; simpl; [discriminate|].
  rewrite Hi. destruct (String.eqb (id e) i).
  - intros [= <-]. now exists e'.
  - exact IH.
Qed.

Lemma qualifies_movedUp (w w' : World) (a : Anchor) :
  innerHeight w' = innerHeight w ->
  movedUp (document w) (document w') ->
  Qualifies w a -> Qualifies w' a.
Proof.
  intros Hh Hd (el & T & Lt). unfold Qualifies, targetOf, elementWithId in *.
  destruct (decodeURIComponent _) as [i|x]; [|discriminate].
  destruct (find_movedUp _ _ i el Hd T) as (el' & F & Le).
  exists el'. split; [exact F|]. rewrite Hh.
  eapply Qle_lt_trans; eauto.
Qed.

(** X14.  Scrolling down never moves the marker back: when the
    handler's loop picks an anchor and the headings then move up in
    the viewport (same elements, same anchors, same viewport height),
    the loop picks that anchor or a later one. *)
Theorem marker_moves_forward (w w' : World) (i : nat) :
  anchors w' = anchors w ->
  innerHeight w' = innerHeight w ->
  movedUp (document w) (document w') ->
  forallb wellFormed (anchors w) = true ->
  snd (onScroll_loop w) = Ok (Some i) ->
  exists j, i <= j /\ snd (onScroll_loop w') = Ok (Some j).
Proof.
  intros Ha Hh Hd Hw Hi.
  destruct (scan_anchors w Hw) as (o & E & Ho & _).
  rewrite onScroll_loop_scan, E in Hi. simpl in Hi. injection Hi as ->.
  destruct (proj1 (Ho i) eq_refl) as [(a & Hn & Q) _].
  assert (Hw' : forallb wellFormed (anchors w') = true) by now rewrite Ha.
  destruct (scan_anchors w' Hw') as (o' & E' & Ho' & Hnone).
  rewrite onScroll_loop_scan, E'. simpl.
  pose proof (qualifies_movedUp w w' a Hh Hd Q) as Q'.
  destruct o' as [j|].
  - exists j. split; [|reflexivity].
    destruct (proj1 (Ho' j) eq_refl) as [_ Hlast].
    destruct (Nat.le_gt_cases i j) as [L|L]; [exact L|].
    rewrite <- Ha in Hn. destruct (Hlast i a L Hn Q').
  - rewrite <- Ha in Hn.
    destruct (proj1 Hnone eq_refl a (nth_error_In _ _ Hn) Q').
Qed.

Lemma marker_moves_forward_witness :
  movedUp (document Sample.page) (document Sample.scrolledDown) /\
  snd (onScroll_loop Sample.page) = Ok (Some 2) /\
  snd (onScroll_loop Sample.scrolledDown) = Ok (Some 3) /\
  exists j, 2 <= j /\ snd (onScroll_loop Sample.scrolledDown) = Ok (Some j).
Proof.
  assert (M : movedUp (document Sample.page) (document Sample.scrolledDown)).
  { repeat constructor; simpl; discriminate. }
  split; [exact M|]. split; [reflexivity|]. split; [reflexivity|].
  apply (marker_moves_forward Sample.page Sample.scrolledDown 2);
    [reflexivity | reflexivity | exact M | reflexivity | reflexivity].
Defined.

End ScrollDown.
